(** * Translation_i18n: the authentication service

    A shallow embedding of [src/dev/src/modules/auth/auth.service.ts]
    ([AuthService]: [register], [login], [validateUser], [generateTokens]).

    JavaScript objects that are spread or destructured are finite maps
    from property names to values; entities of the persistence layer are
    records; the asynchronous methods are computations of a state and
    exception monad over a [World] made of the database, the log of the
    calls issued to the injected libraries, and the counters that index
    the clock and the random source.

    The libraries the service is wired with (the entity manager, bcryptjs,
    the JWT service) are not code of the repository: they are interfaces,
    and their calls are taken to return.  Only the two exceptions the
    service itself raises are part of the model. *)

From Stdlib Require Import ZArith Ascii String.
From stdpp Require Import gmap strings fin_maps infinite countable list.

Open Scope string_scope.
Open Scope list_scope.
Open Scope Z_scope.

(** ** JavaScript values and objects *)

Inductive JsValue :=
  | JsString (s : string)
  | JsBoolean (b : bool)
  | JsNumber (n : Z)
  | JsDate (ms : Z)
  | JsArray (items : list string).

#[global] Instance JsValue_eq_dec : EqDecision JsValue.
Proof. solve_decision. Defined.

Definition JsValue_to_sum (v : JsValue) : string + bool + Z + Z + list string :=
  match v with
  | JsString s => inl (inl (inl (inl s)))
  | JsBoolean b => inl (inl (inl (inr b)))
  | JsNumber n => inl (inl (inr n))
  | JsDate ms => inl (inr ms)
  | JsArray l => inr l
  end.

Definition JsValue_of_sum (x : string + bool + Z + Z + list string) : JsValue :=
  match x with
  | inl (inl (inl (inl s))) => JsString s
  | inl (inl (inl (inr b))) => JsBoolean b
  | inl (inl (inr n)) => JsNumber n
  | inl (inr ms) => JsDate ms
  | inr l => JsArray l
  end.

Lemma JsValue_of_to_sum (v : JsValue) : JsValue_of_sum (JsValue_to_sum v) = v.
Proof. by destruct v. Qed.

#[global] Instance JsValue_countable : Countable JsValue :=
  inj_countable' JsValue_to_sum JsValue_of_sum JsValue_of_to_sum.

(** An object is the finite map of its own enumerable properties. *)
Abbreviation JsObject := (gmap string JsValue).

(** ** Entities

    The entity classes ([db/entitis/Users], [Organization], [Session]) and
    the DTO classes are imported by the service but declared elsewhere.
    An entity is its primary key together with its fields: [em.create]
    builds the fields in memory, the first flush assigns the key. *)

Module UserRole.
(** Modelled from the spec: the enum [UserRole] of [db/entitis/Users],
    "enumerated: OWNER and others".  A TypeScript string enum: at run time
    a role is a string, and [generateTokens] receives it as one. *)
Definition t := string.
Definition OWNER : t := "OWNER".
End UserRole.

Module Users.
(** Modelled from the spec: the fields of the entity [Users] (data model,
    "User"); they are the fields [register] initialises. *)
Record data := {
  email : string;
  passwordHash : string;
  role : UserRole.t;
  isActive : bool;
  isEmailVerified : bool;
  createdAt : Z;
  updatedAt : Z;
  organizationId : string;
  projectIds : list string
}.
Record t := { id : string; fields : data }.
#[local] Coercion fields : t >-> data.

(** [user.updatedAt = d] *)
Definition set_updatedAt (d : Z) (u : t) : t :=
  {| id := id u;
     fields := {| email := email u; passwordHash := passwordHash u;
                  role := role u; isActive := isActive u;
                  isEmailVerified := isEmailVerified u;
                  createdAt := createdAt u; updatedAt := d;
                  organizationId := organizationId u;
                  projectIds := projectIds u |} |}.

(** The own enumerable properties of a managed entity: what [{ ...user }]
    copies. *)
Definition spread (u : t) : JsObject :=
  <["id" := JsString (id u)]>
  (<["email" := JsString (email u)]>
  (<["passwordHash" := JsString (passwordHash u)]>
  (<["role" := JsString (role u)]>
  (<["isActive" := JsBoolean (isActive u)]>
  (<["isEmailVerified" := JsBoolean (isEmailVerified u)]>
  (<["createdAt" := JsDate (createdAt u)]>
  (<["updatedAt" := JsDate (updatedAt u)]>
  (<["organizationId" := JsString (organizationId u)]>
  (<["projectIds" := JsArray (projectIds u)]> ∅))))))))).

(** A [where] object is a conjunction of equalities on properties. *)
Inductive cond :=
  | where_id (v : string)
  | where_email (v : string)
  | where_isActive (v : bool).

Definition holds (u : t) (c : cond) : bool :=
  match c with
  | where_id v => String.eqb (id u) v
  | where_email v => String.eqb (email u) v
  | where_isActive v => Bool.eqb (isActive u) v
  end.

Definition matches (conds : list cond) (u : t) : bool :=
  forallb (holds u) conds.
End Users.

Coercion Users.fields : Users.t >-> Users.data.

Module Organization.
(** Modelled from the spec: the fields of the entity [Organization] (data
    model, "Organization"), as [register] initialises them.  [userIds] may
    be missing on a row: the service tests it before pushing to it. *)
Record data := {
  name : string;
  createdAt : Z;
  updatedAt : Z;
  userIds : option (list string)
}.
Record t := { id : string; fields : data }.
#[local] Coercion fields : t >-> data.

(** [org.userIds = ids] *)
Definition set_userIds (ids : option (list string)) (o : t) : t :=
  {| id := id o;
     fields := {| name := name o; createdAt := createdAt o;
                  updatedAt := updatedAt o; userIds := ids |} |}.
End Organization.

Coercion Organization.fields : Organization.t >-> Organization.data.

Module Session.
(** Modelled from the spec: the fields of the entity [Session] (data model,
    "Session"), as [register] initialises them; [user] is the owner's id. *)
Record data := {
  accessToken : string;
  refreshToken : string;
  user : string;
  expiresAt : Z;
  revoked : bool;
  createdAt : Z
}.
Record t := { id : string; fields : data }.
#[local] Coercion fields : t >-> data.
End Session.

Coercion Session.fields : Session.t >-> Session.data.

(** Modelled from the spec: [RegisterDto] ("input: email, password,
    organization_name"), with the three fields the service reads.  Of the
    properties [...registerDto] copies into the new user, [email] is the
    one the entity has. *)
Record RegisterDto := {
  reg_email : string;
  reg_password : string;
  reg_organizationName : string
}.

(** Modelled from the spec: [LoginDto] ("input: email, password"). *)
Record LoginDto := {
  login_email : string;
  login_password : string
}.

Record Tokens := {
  accessToken : string;
  refreshToken : string
}.

(** ** The world a request runs in *)

Record Store := {
  users : list Users.t;
  organizations : list Organization.t;
  sessions : list Session.t
}.

Inductive EntityName := EUsers | EOrganization | ESession.

(** The calls the service issues to its collaborators, in program order. *)
Inductive Call :=
  | Call_findOne (e : EntityName)
  | Call_persistAndFlush (e : EntityName)
  | Call_bcrypt_hash (plain : string)
  | Call_bcrypt_compare (plain hash : string)
  | Call_signAsync (payload : JsObject)
  | Call_randomUUID.

Record World := {
  db : Store;
  log : list Call;
  ticks : nat;
  draws : nat
}.

Definition is_write (c : Call) : bool :=
  match c with Call_persistAndFlush _ => true | _ => false end.

Definition is_compare (c : Call) : bool :=
  match c with Call_bcrypt_compare _ _ => true | _ => false end.

(** ** Exceptions and the request monad *)

Inductive HttpException :=
  | ConflictException (message : string)
  | UnauthorizedException (message : string).

Inductive Outcome (A : Type) :=
  | Resolved (a : A)
  | Rejected (e : HttpException).
Arguments Resolved {A} a.
Arguments Rejected {A} e.

Definition Async (A : Type) : Type := World -> Outcome A * World.

Definition resolve {A : Type} (a : A) : Async A :=
  fun w => (Resolved a, w).

(** [await]: run [c]; carry on with its value, or propagate its exception. *)
Definition await {A B : Type} (c : Async A) (k : A -> Async B) : Async B :=
  fun w =>
    match c w with
    | (Resolved a, w') => k a w'
    | (Rejected e, w') => (Rejected e, w')
    end.

Notation "'let!' x ':=' c 'in' k" := (await c (fun x => k))
  (at level 10, x name, c at level 100, k at level 200,
   format "'[v' 'let!'  x  ':='  c  'in' '/' k ']'").
Notation "'do!' c 'in' k" := (await c (fun _ => k))
  (at level 10, c at level 100, k at level 200,
   format "'[v' 'do!'  c  'in' '/' k ']'").

Definition throw {A : Type} (e : HttpException) : Async A :=
  fun w => (Rejected e, w).

Definition record_call (c : Call) (w : World) : World :=
  {| db := db w; log := log w ++ [c]; ticks := ticks w; draws := draws w |}.

Definition with_db (s : Store) (w : World) : World :=
  {| db := s; log := log w; ticks := ticks w; draws := draws w |}.


Lemma World_eq (w1 w2 : World) :
  db w1 = db w2 → log w1 = log w2 → ticks w1 = ticks w2 →
  draws w1 = draws w2 → w1 = w2.
Proof. destruct w1, w2; simpl; by intros -> -> -> ->. Qed.

Definition tick (w : World) : World :=
  {| db := db w; log := log w; ticks := S (ticks w); draws := draws w |}.

Definition draw (w : World) : World :=
  {| db := db w; log := log w; ticks := ticks w; draws := S (draws w) |}.

(** ** The collaborators of the service *)

(** The process the service runs in: the wall clock (milliseconds since the
    epoch, one reading per index), the random source, and the two
    environment variables read by [register]. *)
Class Runtime := {
  clock : nat -> Z;
  entropy : nat -> string;
  AT_SECRET : option string;
  RT_SECRET : option string
}.

(** bcryptjs: [hash] draws a salt and hashes with the given number of
    rounds; [compare] checks a plain text against a stored hash. *)
Class Bcrypt := {
  hashSync : string -> nat -> string -> string;
  compareSync : string -> string -> bool
}.

Inductive ExpiresIn :=
  | SpanText (s : string)
  | SpanSeconds (n : Z).

Record JwtSignOptions := {
  secret : option string;
  expiresIn : option ExpiresIn;
  issuer : option string;
  audience : option string
}.

(** [src/config/jwt.config]: the constants are declared outside the
    service; [signOptions] is optional, hence the [?.] in
    [generateTokens]. *)
Record JwtModuleSignOptions := {
  cfg_expiresIn : option ExpiresIn;
  cfg_issuer : option string;
  cfg_audience : option string
}.

Record JwtModuleOptions := {
  cfg_secret : option string;
  signOptions : option JwtModuleSignOptions
}.

Record RefreshTokenConfig := {
  rt_secret : option string;
  rt_expiresIn : option ExpiresIn
}.

Class JwtConfig := {
  jwtConfig : JwtModuleOptions;
  refreshTokenConfig : RefreshTokenConfig
}.

(** The claims the signer itself stamps on a token signed with an
    expiration, an issuer and an audience. *)
Definition stamped_claims : gset string :=
  {[ "iat"; "exp"; "iss"; "aud" ]}.

(** The claims of a token carry a payload when they hold every property of
    the payload and nothing else but stamped claims. *)
Definition carries (payload claims : JsObject) : Prop :=
  payload ⊆ claims ∧ dom claims ⊆ dom payload ∪ stamped_claims.

(** The JWT service: a token signed from a payload (at a given instant)
    decodes to claims that carry this payload. *)
Class JwtService := {
  sign : JsObject -> JwtSignOptions -> Z -> string;
  decode : string -> option JsObject;
  decode_sign : forall payload options now,
    exists claims,
      decode (sign payload options now) = Some claims /\
      carries payload claims
}.

Section Service.

Context {runtime : Runtime} {bcrypt : Bcrypt}
        {jwtService : JwtService} {config : JwtConfig}.

(** *** Clock and randomness *)

(** [new Date()] and [Date.now()]: one reading of the clock. *)
Definition Date_now : Async Z :=
  fun w => (Resolved (clock (ticks w)), tick w).

Definition crypto_randomUUID : Async string :=
  fun w => (Resolved (entropy (draws w)), record_call Call_randomUUID (draw w)).

(** *** bcryptjs *)

Definition bcrypt_hash (plain : string) (rounds : nat) : Async string :=
  fun w =>
    (Resolved (hashSync plain rounds (entropy (draws w))),
     record_call (Call_bcrypt_hash plain) (draw w)).

Definition bcrypt_compare (plain hash : string) : Async bool :=
  fun w =>
    (Resolved (compareSync plain hash),
     record_call (Call_bcrypt_compare plain hash) w).

(** *** JwtService.signAsync *)

Definition signAsync (payload : JsObject) (options : JwtSignOptions)
  : Async string :=
  fun w =>
    (Resolved (sign payload options (clock (ticks w))),
     record_call (Call_signAsync payload) (tick w)).

(** *** The entity manager *)

Definition em_findOne_Users (conds : list Users.cond)
  : Async (option Users.t) :=
  fun w =>
    (Resolved (List.find (Users.matches conds) (users (db w))),
     record_call (Call_findOne EUsers) w).

(** [persistAndFlush] of an entity that has no primary key yet: the store
    assigns a key no row of the collection has, and inserts the row. *)
Definition em_persistAndFlush_new_Organization (d : Organization.data)
  : Async Organization.t :=
  fun w =>
    let o := {| Organization.id :=
                  fresh (Organization.id <$> organizations (db w));
                Organization.fields := d |} in
    (Resolved o,
     record_call (Call_persistAndFlush EOrganization)
       (with_db {| users := users (db w);
                   organizations := organizations (db w) ++ [o];
                   sessions := sessions (db w) |} w)).

Definition em_persistAndFlush_new_Users (d : Users.data) : Async Users.t :=
  fun w =>
    let u := {| Users.id := fresh (Users.id <$> users (db w));
                Users.fields := d |} in
    (Resolved u,
     record_call (Call_persistAndFlush EUsers)
       (with_db {| users := users (db w) ++ [u];
                   organizations := organizations (db w);
                   sessions := sessions (db w) |} w)).

Definition em_persistAndFlush_new_Session (d : Session.data)
  : Async Session.t :=
  fun w =>
    let s := {| Session.id := fresh (Session.id <$> sessions (db w));
                Session.fields := d |} in
    (Resolved s,
     record_call (Call_persistAndFlush ESession)
       (with_db {| users := users (db w);
                   organizations := organizations (db w);
                   sessions := sessions (db w) ++ [s] |} w)).

(** [persistAndFlush] of a managed entity: its row is written back. *)
Definition em_persistAndFlush_Organization (o : Organization.t)
  : Async unit :=
  fun w =>
    let write (r : Organization.t) :=
      if String.eqb (Organization.id r) (Organization.id o) then o else r in
    (Resolved tt,
     record_call (Call_persistAndFlush EOrganization)
       (with_db {| users := users (db w);
                   organizations := write <$> organizations (db w);
                   sessions := sessions (db w) |} w)).

Definition em_persistAndFlush_Users (u : Users.t) : Async unit :=
  fun w =>
    let write (r : Users.t) :=
      if String.eqb (Users.id r) (Users.id u) then u else r in
    (Resolved tt,
     record_call (Call_persistAndFlush EUsers)
       (with_db {| users := write <$> users (db w);
                   organizations := organizations (db w);
                   sessions := sessions (db w) |} w)).

(** *** AuthService *)

Definition SEVEN_DAYS : Z := 7 * 24 * 60 * 60 * 1000.

Definition register (registerDto : RegisterDto)
  : Async (JsObject * Tokens) :=
  let! existingUser :=
    em_findOne_Users [Users.where_email (reg_email registerDto)] in
  match existingUser with
  | Some _ => throw (ConflictException "User with this email already exists")
  | None =>
    let! hashedPassword := bcrypt_hash (reg_password registerDto) 12 in
    let! orgCreatedAt := Date_now in
    let! orgUpdatedAt := Date_now in
    let createOrganization :=
      {| Organization.name := reg_organizationName registerDto;
         Organization.createdAt := orgCreatedAt;
         Organization.updatedAt := orgUpdatedAt;
         Organization.userIds := Some [] |} in
    let! createOrganization :=
      em_persistAndFlush_new_Organization createOrganization in
    let! userCreatedAt := Date_now in
    let! userUpdatedAt := Date_now in
    let user :=
      {| Users.email := reg_email registerDto;
         Users.passwordHash := hashedPassword;
         Users.role := UserRole.OWNER;
         Users.isActive := true;
         Users.isEmailVerified := false;
         Users.createdAt := userCreatedAt;
         Users.updatedAt := userUpdatedAt;
         Users.organizationId := Organization.id createOrganization;
         Users.projectIds := [] |} in
    let! user := em_persistAndFlush_new_Users user in
    let createOrganization :=
      match Organization.userIds createOrganization with
      | Some ids =>
          Organization.set_userIds (Some (ids ++ [Users.id user]))
            createOrganization
      | None =>
          Organization.set_userIds (Some [Users.id user]) createOrganization
      end in
    do! em_persistAndFlush_Organization createOrganization in
    let! access :=
      signAsync {[ "sub" := JsString (Users.id user) ]}
        {| secret := AT_SECRET;
           expiresIn := Some (SpanText "15m");
           audience := Some "spa";
           issuer := Some "your-app" |} in
    let! jti := crypto_randomUUID in
    let! refresh :=
      signAsync
        (<[ "sub" := JsString (Users.id user) ]> {[ "jti" := JsString jti ]})
        {| secret := RT_SECRET;
           expiresIn := Some (SpanText "7d");
           audience := Some "spa";
           issuer := Some "your-app" |} in
    let! now := Date_now in
    let! sessionCreatedAt := Date_now in
    let session :=
      {| Session.accessToken := access;
         Session.refreshToken := refresh;
         Session.user := Users.id user;
         Session.expiresAt := now + SEVEN_DAYS;
         Session.revoked := false;
         Session.createdAt := sessionCreatedAt |} in
    do! em_persistAndFlush_new_Session session in
    let userWithoutSensitiveData := Users.spread user in
    resolve (userWithoutSensitiveData,
             {| accessToken := access; refreshToken := refresh |})
  end.

Definition generateTokens (userId email role : string) : Async Tokens :=
  let! accessToken :=
    signAsync
      (<[ "sub" := JsString userId ]>
       (<[ "email" := JsString email ]> {[ "role" := JsString role ]}))
      {| secret := cfg_secret jwtConfig;
         expiresIn := signOptions jwtConfig ≫= cfg_expiresIn;
         issuer := signOptions jwtConfig ≫= cfg_issuer;
         audience := signOptions jwtConfig ≫= cfg_audience |} in
  let! refreshToken :=
    signAsync
      (<[ "sub" := JsString userId ]>
       (<[ "email" := JsString email ]> {[ "role" := JsString role ]}))
      {| secret := rt_secret refreshTokenConfig;
         expiresIn := rt_expiresIn refreshTokenConfig;
         issuer := signOptions jwtConfig ≫= cfg_issuer;
         audience := signOptions jwtConfig ≫= cfg_audience |} in
  resolve {| accessToken := accessToken; refreshToken := refreshToken |}.

Definition login (loginDto : LoginDto) : Async (JsObject * Tokens) :=
  let! user := em_findOne_Users [Users.where_email (login_email loginDto)] in
  match user with
  | None => throw (UnauthorizedException "User not found")
  | Some user =>
    if negb (Users.isActive user) then
      throw (UnauthorizedException "User account is deactivated")
    else
      let! isPasswordValid :=
        bcrypt_compare (login_password loginDto) (Users.passwordHash user) in
      if negb isPasswordValid then
        throw (UnauthorizedException "Password is incorrect")
      else
        let! tokens :=
          generateTokens (Users.id user) (Users.email user) (Users.role user) in
        let! updatedAt := Date_now in
        let user := Users.set_updatedAt updatedAt user in
        do! em_persistAndFlush_Users user in
        let userWithoutSensitiveData :=
          delete "passwordHash" (Users.spread user) in
        resolve (userWithoutSensitiveData, tokens)
  end.

Definition validateUser (id : string) : Async (option Users.t) :=
  let! user :=
    em_findOne_Users [Users.where_id id; Users.where_isActive true] in
  resolve user.

End Service.

(** * Properties *)

(** ** Vocabulary of the statements *)

(** Some stored user has this email. *)
Definition email_taken (s : Store) (e : string) : Prop :=
  ∃ u : Users.t, u ∈ users s ∧ Users.email u = e.

(** The data model's invariant on [Users.email]: no two rows share one. *)
Definition emails (l : list Users.t) : list string :=
  (λ u : Users.t, Users.email u) <$> l.

Definition unique_emails (s : Store) : Prop :=
  NoDup (emails (users s)).

(** The calls issued between two worlds of one request. *)
Definition calls_during (w w' : World) : list Call :=
  drop (length (log w)) (log w').

Section Lookup.

Lemma matches_email (e : string) (u : Users.t) :
  Users.matches [Users.where_email e] u = true ↔ Users.email u = e.
Proof.
  unfold Users.matches; simpl. rewrite andb_true_r. apply String.eqb_eq.
Qed.

Lemma matches_id_active (i : string) (u : Users.t) :
  Users.matches [Users.where_id i; Users.where_isActive true] u = true
  ↔ Users.id u = i ∧ Users.isActive u = true.
Proof.
  unfold Users.matches; simpl. rewrite andb_true_r, andb_true_iff.
  rewrite String.eqb_eq. destruct (Users.isActive u); simpl; intuition.
Qed.

Lemma find_email_None (s : Store) (e : string) :
  ¬ email_taken s e →
  List.find (Users.matches [Users.where_email e]) (users s) = None.
Proof.
  intros Hfree.
  destruct (List.find _ _) as [u|] eqn:Hfind; [|done].
  apply find_some in Hfind as [Hin Hm].
  exfalso; apply Hfree. exists u. split.
  - by apply list_elem_of_In.
  - by apply matches_email.
Qed.

Lemma find_email_Some (s : Store) (e : string) :
  email_taken s e →
  ∃ u, List.find (Users.matches [Users.where_email e]) (users s) = Some u.
Proof.
  intros (u & Hin & He).
  destruct (List.find _ _) as [u'|] eqn:Hfind; [by eexists|].
  apply list_elem_of_In in Hin.
  pose proof (find_none _ _ Hfind u Hin) as Hm.
  apply matches_email in He. congruence.
Qed.

Lemma find_email_free (s : Store) (e : string) :
  List.find (Users.matches [Users.where_email e]) (users s) = None →
  ¬ email_taken s e.
Proof.
  intros Hfind (u & Hin & He). apply list_elem_of_In in Hin.
  pose proof (find_none _ _ Hfind u Hin) as Hm.
  apply matches_email in He. congruence.
Qed.

Lemma find_email_taken (s : Store) (e : string) (u : Users.t) :
  List.find (Users.matches [Users.where_email e]) (users s) = Some u →
  email_taken s e.
Proof.
  intros Hfind. apply find_some in Hfind as [Hin Hm].
  exists u. split; [by apply list_elem_of_In | by apply matches_email].
Qed.

Lemma find_id_active_unique (l : list Users.t) (u : Users.t) :
  NoDup ((λ r : Users.t, Users.id r) <$> l) → u ∈ l →
  Users.isActive u = true →
  List.find
    (Users.matches [Users.where_id (Users.id u); Users.where_isActive true]) l
  = Some u.
Proof.
  induction l as [|a l IH]; intros Hnd Hin Hactive.
  - by apply elem_of_nil in Hin.
  - rewrite fmap_cons in Hnd.
    pose proof (NoDup_cons_1_1 _ _ Hnd) as Hnotin.
    apply NoDup_cons_1_2 in Hnd.
    cbn [List.find]. apply elem_of_cons in Hin as [->|Hin].
    + by rewrite (proj2 (matches_id_active _ _) (conj eq_refl Hactive)).
    + destruct (Users.matches _ a) eqn:Hm.
      * apply matches_id_active in Hm as [Hid _]. exfalso. apply Hnotin.
        rewrite Hid.
        by apply (list_elem_of_fmap_2 (λ r : Users.t, Users.id r)).
      * by apply IH.
Qed.

Lemma find_email_unique (l : list Users.t) (u : Users.t) :
  NoDup (emails l) → u ∈ l →
  List.find (Users.matches [Users.where_email (Users.email u)]) l = Some u.
Proof.
  induction l as [|a l IH]; intros Hnd Hin.
  - by apply elem_of_nil in Hin.
  - unfold emails in *. rewrite fmap_cons in Hnd.
    pose proof (NoDup_cons_1_1 _ _ Hnd) as Hnotin.
    apply NoDup_cons_1_2 in Hnd.
    cbn [List.find]. apply elem_of_cons in Hin as [->|Hin].
    + by rewrite (proj2 (matches_email _ _) eq_refl).
    + destruct (Users.matches _ a) eqn:Hm.
      * apply matches_email in Hm. exfalso. apply Hnotin.
        rewrite Hm.
        by apply (list_elem_of_fmap_2 (λ u : Users.t, Users.email u)).
      * by apply IH.
Qed.

End Lookup.

(** ** What one successful registration leaves behind

    The rows and tokens [register] produces from a request and the world
    it starts in, written out once; [register_run] below shows that the
    service computes exactly these. *)

Section Registration.

Context {runtime : Runtime} {bcrypt : Bcrypt}
        {jwtService : JwtService} {config : JwtConfig}.

Variables (dto : RegisterDto) (w : World).

Definition new_organization_id : string :=
  fresh (Organization.id <$> organizations (db w)).

Definition new_user_id : string :=
  fresh (Users.id <$> users (db w)).

Definition new_session_id : string :=
  fresh (Session.id <$> sessions (db w)).

Definition new_organization (members : list string) : Organization.t :=
  {| Organization.id := new_organization_id;
     Organization.fields :=
       {| Organization.name := reg_organizationName dto;
          Organization.createdAt := clock (ticks w);
          Organization.updatedAt := clock (1 + ticks w);
          Organization.userIds := Some members |} |}.

Definition new_user : Users.t :=
  {| Users.id := new_user_id;
     Users.fields :=
       {| Users.email := reg_email dto;
          Users.passwordHash :=
            hashSync (reg_password dto) 12 (entropy (draws w));
          Users.role := UserRole.OWNER;
          Users.isActive := true;
          Users.isEmailVerified := false;
          Users.createdAt := clock (2 + ticks w);
          Users.updatedAt := clock (3 + ticks w);
          Users.organizationId := new_organization_id;
          Users.projectIds := [] |} |}.

Definition access_payload : JsObject :=
  {[ "sub" := JsString new_user_id ]}.

Definition refresh_payload : JsObject :=
  <[ "sub" := JsString new_user_id ]>
    {[ "jti" := JsString (entropy (1 + draws w)) ]}.

Definition new_tokens : Tokens :=
  {| accessToken :=
       sign access_payload
         {| secret := AT_SECRET; expiresIn := Some (SpanText "15m");
            audience := Some "spa"; issuer := Some "your-app" |}
         (clock (4 + ticks w));
     refreshToken :=
       sign refresh_payload
         {| secret := RT_SECRET; expiresIn := Some (SpanText "7d");
            audience := Some "spa"; issuer := Some "your-app" |}
         (clock (5 + ticks w)) |}.

Definition new_session : Session.t :=
  {| Session.id := new_session_id;
     Session.fields :=
       {| Session.accessToken := accessToken new_tokens;
          Session.refreshToken := refreshToken new_tokens;
          Session.user := new_user_id;
          Session.expiresAt := clock (6 + ticks w) + SEVEN_DAYS;
          Session.revoked := false;
          Session.createdAt := clock (7 + ticks w) |} |}.

Definition registered : World :=
  {| db := {| users := users (db w) ++ [new_user];
              organizations :=
                organizations (db w) ++ [new_organization [new_user_id]];
              sessions := sessions (db w) ++ [new_session] |};
     log := log w ++
            [ Call_findOne EUsers;
              Call_bcrypt_hash (reg_password dto);
              Call_persistAndFlush EOrganization;
              Call_persistAndFlush EUsers;
              Call_persistAndFlush EOrganization;
              Call_signAsync access_payload;
              Call_randomUUID;
              Call_signAsync refresh_payload;
              Call_persistAndFlush ESession ];
     ticks := 8 + ticks w;
     draws := 2 + draws w |}.

(** Writing a row back under a key the collection did not have leaves the
    older rows as they were. *)
Lemma write_back_fresh (l : list Organization.t) (o : Organization.t) :
  (λ r : Organization.t,
     if String.eqb (Organization.id r) (fresh (Organization.id <$> l))
     then o else r)
    <$> l = l.
Proof.
  transitivity (id <$> l); [|apply list_fmap_id].
  apply list_fmap_ext. intros i r Hr. simpl.
  destruct (String.eqb _ _) eqn:Heq; [|done].
  apply String.eqb_eq in Heq. exfalso.
  apply (infinite_is_fresh (Organization.id <$> l)).
  rewrite <- Heq. apply list_elem_of_fmap_2.
  by eapply list_elem_of_lookup_2.
Qed.

Lemma register_run :
  ¬ email_taken (db w) (reg_email dto) →
  register dto w = (Resolved (Users.spread new_user, new_tokens), registered).
Proof.
  intros Hfree. unfold register, await, em_findOne_Users.
  cbn beta iota. rewrite (find_email_None _ _ Hfree).
  cbn -[fresh String.eqb SEVEN_DAYS Users.spread].
  unfold resolve. f_equal.
  apply World_eq;
    cbn [db log ticks draws record_call with_db tick draw registered].
  - f_equal. rewrite fmap_app.
    rewrite (write_back_fresh (organizations (db w))).
    cbn -[fresh]. by rewrite String.eqb_refl.
  - by rewrite <- !app_assoc.
  - reflexivity.
  - reflexivity.
Qed.

Lemma register_conflict_run :
  email_taken (db w) (reg_email dto) →
  register dto w =
    (Rejected (ConflictException "User with this email already exists"),
     record_call (Call_findOne EUsers) w).
Proof.
  intros Htaken. apply find_email_Some in Htaken as [u Hu].
  unfold register, await, em_findOne_Users. cbn beta iota. by rewrite Hu.
Qed.

End Registration.

(** ** The four ways a login ends *)

Section Login.

Context {runtime : Runtime} {bcrypt : Bcrypt}
        {jwtService : JwtService} {config : JwtConfig}.

Variables (dto : LoginDto) (w : World).

(** The row the lookup by email returns. *)
Definition looked_up : option Users.t :=
  List.find (Users.matches [Users.where_email (login_email dto)])
    (users (db w)).

Definition login_payload (u : Users.t) : JsObject :=
  <[ "sub" := JsString (Users.id u) ]>
    (<[ "email" := JsString (Users.email u) ]>
       {[ "role" := JsString (Users.role u) ]}).

Definition login_tokens (u : Users.t) : Tokens :=
  {| accessToken :=
       sign (login_payload u)
         {| secret := cfg_secret jwtConfig;
            expiresIn := signOptions jwtConfig ≫= cfg_expiresIn;
            issuer := signOptions jwtConfig ≫= cfg_issuer;
            audience := signOptions jwtConfig ≫= cfg_audience |}
         (clock (ticks w));
     refreshToken :=
       sign (login_payload u)
         {| secret := rt_secret refreshTokenConfig;
            expiresIn := rt_expiresIn refreshTokenConfig;
            issuer := signOptions jwtConfig ≫= cfg_issuer;
            audience := signOptions jwtConfig ≫= cfg_audience |}
         (clock (1 + ticks w)) |}.

Definition touched (u : Users.t) : Users.t :=
  Users.set_updatedAt (clock (2 + ticks w)) u.

Definition logged_in (u : Users.t) : World :=
  {| db := {| users :=
                (λ r : Users.t,
                   if String.eqb (Users.id r) (Users.id u)
                   then touched u else r) <$> users (db w);
              organizations := organizations (db w);
              sessions := sessions (db w) |};
     log := log w ++
            [ Call_findOne EUsers;
              Call_bcrypt_compare (login_password dto) (Users.passwordHash u);
              Call_signAsync (login_payload u);
              Call_signAsync (login_payload u);
              Call_persistAndFlush EUsers ];
     ticks := 3 + ticks w;
     draws := draws w |}.

Lemma login_not_found_run :
  looked_up = None →
  login dto w =
    (Rejected (UnauthorizedException "User not found"),
     record_call (Call_findOne EUsers) w).
Proof.
  unfold looked_up. intros Hnone.
  unfold login, await, em_findOne_Users. cbn beta iota. by rewrite Hnone.
Qed.

Lemma login_inactive_run (u : Users.t) :
  looked_up = Some u → Users.isActive u = false →
  login dto w =
    (Rejected (UnauthorizedException "User account is deactivated"),
     record_call (Call_findOne EUsers) w).
Proof.
  unfold looked_up. intros Hu Hactive.
  unfold login, await, em_findOne_Users. cbn beta iota.
  by rewrite Hu, Hactive.
Qed.

Lemma login_wrong_password_run (u : Users.t) :
  looked_up = Some u → Users.isActive u = true →
  compareSync (login_password dto) (Users.passwordHash u) = false →
  login dto w =
    (Rejected (UnauthorizedException "Password is incorrect"),
     record_call
       (Call_bcrypt_compare (login_password dto) (Users.passwordHash u))
       (record_call (Call_findOne EUsers) w)).
Proof.
  unfold looked_up. intros Hu Hactive Hcmp.
  unfold login, await, em_findOne_Users, bcrypt_compare. cbn beta iota.
  by rewrite Hu, Hactive, Hcmp.
Qed.

Lemma login_run (u : Users.t) :
  looked_up = Some u → Users.isActive u = true →
  compareSync (login_password dto) (Users.passwordHash u) = true →
  login dto w =
    (Resolved (delete "passwordHash" (Users.spread (touched u)),
               login_tokens u),
     logged_in u).
Proof.
  unfold looked_up. intros Hu Hactive Hcmp.
  unfold login, await, em_findOne_Users, bcrypt_compare. cbn beta iota.
  rewrite Hu, Hactive. cbn [negb]. rewrite Hcmp.
  cbn -[String.eqb Users.spread Users.set_updatedAt].
  unfold resolve. f_equal.
  apply World_eq;
    cbn [db log ticks draws record_call with_db tick draw logged_in].
  - reflexivity.
  - by rewrite <- !app_assoc.
  - reflexivity.
  - reflexivity.
Qed.

End Login.

(** ** A reference implementation of the collaborators

    Small executable instances of the interfaces, on which the service can
    be run on concrete requests. *)

Module Reference.

(** Tokens are the binary digits of the encoding of their claims. *)
Fixpoint digits (p : positive) : string :=
  match p with
  | xH => EmptyString
  | xO q => String "0"%char (digits q)
  | xI q => String "1"%char (digits q)
  end.

Fixpoint undigits (s : string) : option positive :=
  match s with
  | EmptyString => Some xH
  | String c r =>
      if Ascii.eqb c "0"%char then xO <$> undigits r
      else if Ascii.eqb c "1"%char then xI <$> undigits r
      else None
  end.

Lemma undigits_digits (p : positive) : undigits (digits p) = Some p.
Proof. induction p as [q IH|q IH|]; simpl; by rewrite ?IH. Qed.

Definition claims_of (payload : JsObject) (now : Z) : JsObject :=
  payload ∪ {[ "iat" := JsNumber (now `div` 1000) ]}.

Definition ref_sign (payload : JsObject) (options : JwtSignOptions) (now : Z)
  : string :=
  digits (encode (claims_of payload now)).

Definition ref_decode (token : string) : option JsObject :=
  undigits token ≫= countable.decode.

Lemma ref_decode_sign (payload : JsObject) (options : JwtSignOptions) (now : Z) :
  ref_decode (ref_sign payload options now) = Some (claims_of payload now).
Proof.
  unfold ref_decode, ref_sign. rewrite undigits_digits. simpl.
  apply decode_encode.
Qed.

Lemma claims_of_carries (payload : JsObject) (now : Z) :
  carries payload (claims_of payload now).
Proof.
  split.
  - apply map_union_subseteq_l.
  - unfold claims_of, stamped_claims.
    rewrite dom_union_L, dom_singleton_L. apply union_mono_l.
    intros k Hk. apply elem_of_singleton in Hk as ->.
    rewrite !elem_of_union, !elem_of_singleton. tauto.
Qed.

Definition jwtService : JwtService :=
  {| sign := ref_sign;
     decode := ref_decode;
     decode_sign := fun payload options now =>
       ex_intro _ (claims_of payload now)
         (conj (ref_decode_sign payload options now)
               (claims_of_carries payload now)) |}.

(** A hash is the salt followed by the plain text; comparing checks the
    tail of the hash. *)
Definition bcrypt : Bcrypt :=
  {| hashSync := fun plain rounds salt => String.append salt plain;
     compareSync := fun plain hash =>
       String.eqb
         (String.substring (String.length hash - String.length plain)
            (String.length plain) hash)
         plain |}.

Definition runtime : Runtime :=
  {| clock := fun n => 1700000000000 + Z.of_nat n;
     entropy := fun n => string_of_list_ascii (repeat "r"%char (S n));
     AT_SECRET := Some "at-secret";
     RT_SECRET := Some "rt-secret" |}.

Definition config : JwtConfig :=
  {| jwtConfig :=
       {| cfg_secret := Some "jwt-secret";
          signOptions :=
            Some {| cfg_expiresIn := Some (SpanText "15m");
                    cfg_issuer := Some "translation";
                    cfg_audience := Some "web" |} |};
     refreshTokenConfig :=
       {| rt_secret := Some "refresh-secret";
          rt_expiresIn := Some (SpanText "7d") |} |}.

(** Two stored users: an active owner and a deactivated one. *)
Definition alice : Users.t :=
  {| Users.id := "u1";
     Users.fields :=
       {| Users.email := "alice@example.com";
          Users.passwordHash := "rhunter2";
          Users.role := UserRole.OWNER;
          Users.isActive := true;
          Users.isEmailVerified := false;
          Users.createdAt := 1690000000000;
          Users.updatedAt := 1690000000000;
          Users.organizationId := "o1";
          Users.projectIds := [] |} |}.

Definition bob : Users.t :=
  {| Users.id := "u2";
     Users.fields :=
       {| Users.email := "bob@example.com";
          Users.passwordHash := "rrtr0ub4dor";
          Users.role := "TRANSLATOR";
          Users.isActive := false;
          Users.isEmailVerified := true;
          Users.createdAt := 1690000000500;
          Users.updatedAt := 1690000000500;
          Users.organizationId := "o1";
          Users.projectIds := [] |} |}.

Definition acme : Organization.t :=
  {| Organization.id := "o1";
     Organization.fields :=
       {| Organization.name := "Acme";
          Organization.createdAt := 1690000000000;
          Organization.updatedAt := 1690000000000;
          Organization.userIds := Some ["u1"; "u2"] |} |}.

Definition empty_world : World :=
  {| db := {| users := []; organizations := []; sessions := [] |};
     log := []; ticks := 0; draws := 0 |}.

Definition world : World :=
  {| db := {| users := [alice; bob]; organizations := [acme];
              sessions := [] |};
     log := []; ticks := 0; draws := 0 |}.

Definition carol_registers : RegisterDto :=
  {| reg_email := "carol@example.com";
     reg_password := "correct horse";
     reg_organizationName := "Initech" |}.

Definition alice_registers : RegisterDto :=
  {| reg_email := "alice@example.com";
     reg_password := "hunter2";
     reg_organizationName := "Acme II" |}.

End Reference.

(** ** Shared facts about requests *)

Section Facts.

Context {runtime : Runtime} {bcrypt : Bcrypt}
        {jwtService : JwtService} {config : JwtConfig}.

Lemma calls_during_app (w w' : World) (cs : list Call) :
  log w' = log w ++ cs → calls_during w w' = cs.
Proof. unfold calls_during. intros ->. apply drop_app_length. Qed.

Lemma looked_up_None (dto : LoginDto) (w : World) :
  ¬ email_taken (db w) (login_email dto) → looked_up dto w = None.
Proof. apply find_email_None. Qed.

Lemma looked_up_unique (u : Users.t) (password : string) (w : World) :
  unique_emails (db w) → u ∈ users (db w) →
  looked_up {| login_email := Users.email u; login_password := password |} w
  = Some u.
Proof. intros Hnd Hin. by apply find_email_unique. Qed.

(** Claims that carry a payload agree with it on every property it has,
    and have no property outside the payload and the stamped claims. *)
Lemma carries_lookup (payload claims : JsObject) (k : string) (v : JsValue) :
  carries payload claims → payload !! k = Some v → claims !! k = Some v.
Proof. intros [Hsub _] Hk. by eapply lookup_weaken. Qed.

Lemma carries_absent (payload claims : JsObject) (k : string) :
  carries payload claims → payload !! k = None → k ∉ stamped_claims →
  claims !! k = None.
Proof.
  intros [_ Hdom] Hk Hstamp. apply not_elem_of_dom. intros Hin.
  apply Hdom in Hin. apply elem_of_union in Hin as [Hin|Hin]; [|done].
  by apply not_elem_of_dom in Hk.
Qed.

(** The signer stamps neither an email nor a role. *)
Lemma email_role_not_stamped :
  ("email" ∉ stamped_claims) ∧ ("role" ∉ stamped_claims).
Proof.
  unfold stamped_claims.
  by rewrite !not_elem_of_union, !not_elem_of_singleton.
Qed.

(** A login that is refused leaves the database as it was and has written
    nothing. *)
Lemma login_rejected_inv (dto : LoginDto) (w w' : World) (e : HttpException) :
  login dto w = (Rejected e, w') →
  db w' = db w ∧
  (∃ cs, log w' = log w ++ cs ∧ Forall (λ c, is_write c = false) cs) ∧
  e ∈ [ UnauthorizedException "User not found";
        UnauthorizedException "User account is deactivated";
        UnauthorizedException "Password is incorrect" ].
Proof.
  intros Hrun.
  destruct (looked_up dto w) as [u|] eqn:Hu.
  - destruct (Users.isActive u) eqn:Hactive.
    + destruct (compareSync (login_password dto) (Users.passwordHash u))
        eqn:Hcmp.
      * by rewrite (login_run dto w u Hu Hactive Hcmp) in Hrun.
      * rewrite (login_wrong_password_run dto w u Hu Hactive Hcmp) in Hrun.
        injection Hrun as <- <-. split; [done|]. split.
        { eexists. split.
          - cbn [record_call log]. rewrite <- app_assoc. reflexivity.
          - by repeat constructor. }
        do 2 apply list_elem_of_further. apply list_elem_of_here.
    + rewrite (login_inactive_run dto w u Hu Hactive) in Hrun.
      injection Hrun as <- <-. split; [done|]. split.
      { eexists. split; [reflexivity|]. by repeat constructor. }
      apply list_elem_of_further, list_elem_of_here.
  - rewrite (login_not_found_run dto w Hu) in Hrun.
    injection Hrun as <- <-. split; [done|]. split.
    { eexists. split; [reflexivity|]. by repeat constructor. }
    apply list_elem_of_here.
Qed.

End Facts.

(** ** Registration *)

Section RegisterClaims.

Context {runtime : Runtime} {bcrypt : Bcrypt} {jwtService : JwtService}.

Lemma spread_passwordHash (u : Users.t) :
  Users.spread u !! "passwordHash" = Some (JsString (Users.passwordHash u)).
Proof.
  unfold Users.spread.
  rewrite !(lookup_insert_ne _ _ "passwordHash") by done.
  apply lookup_insert_eq.
Qed.

(** The user object [register] answers with is a plain copy of the managed
    entity: the stored hash is one of its properties. *)
Lemma register_response_passwordHash (dto : RegisterDto) (w : World) :
  ¬ email_taken (db w) (reg_email dto) →
  ∃ response tokens w',
    register dto w = (Resolved (response, tokens), w') ∧
    response !! "passwordHash"
    = Some (JsString (hashSync (reg_password dto) 12 (entropy (draws w)))).
Proof.
  intros Hfree. do 3 eexists. split; [by apply register_run|].
  apply spread_passwordHash.
Qed.

(** The tokens [register] signs carry the subject alone (and a token id in
    the refresh token): their claims hold neither an email nor a role. *)
Lemma register_tokens_claims (dto : RegisterDto) (w : World) :
  ¬ email_taken (db w) (reg_email dto) →
  ∃ response tokens w' access refresh,
    register dto w = (Resolved (response, tokens), w') ∧
    decode (accessToken tokens) = Some access ∧
    decode (refreshToken tokens) = Some refresh ∧
    access !! "sub" = Some (JsString (new_user_id w)) ∧
    refresh !! "sub" = Some (JsString (new_user_id w)) ∧
    access !! "email" = None ∧ access !! "role" = None ∧
    refresh !! "email" = None ∧ refresh !! "role" = None.
Proof.
  intros Hfree.
  destruct (decode_sign (access_payload w)
              {| secret := AT_SECRET; expiresIn := Some (SpanText "15m");
                 audience := Some "spa"; issuer := Some "your-app" |}
              (clock (4 + ticks w))) as (access & Ha & Hca).
  destruct (decode_sign (refresh_payload w)
              {| secret := RT_SECRET; expiresIn := Some (SpanText "7d");
                 audience := Some "spa"; issuer := Some "your-app" |}
              (clock (5 + ticks w))) as (refresh & Hr & Hcr).
  exists (Users.spread (new_user dto w)), (new_tokens w), (registered dto w),
    access, refresh.
  split; [by apply register_run|].
  split; [exact Ha|]. split; [exact Hr|].
  repeat split.
  - eapply carries_lookup; [exact Hca|]. apply lookup_singleton_eq.
  - eapply carries_lookup; [exact Hcr|]. apply lookup_insert_eq.
  - eapply carries_absent; [exact Hca|done|].
    apply email_role_not_stamped.
  - eapply carries_absent; [exact Hca|done|].
    apply email_role_not_stamped.
  - eapply carries_absent; [exact Hcr| |apply email_role_not_stamped].
    unfold refresh_payload. by rewrite lookup_insert_ne, lookup_singleton_ne.
  - eapply carries_absent; [exact Hcr| |apply email_role_not_stamped].
    unfold refresh_payload. by rewrite lookup_insert_ne, lookup_singleton_ne.
Qed.

(** C2. When a user with the given email is already stored, [register]
    fails with the Conflict exception "User with this email already
    exists"; the database is the one it started from (no Organization,
    User or Session is added) and the only call issued is the lookup. *)
Theorem register_existing_email_conflict (dto : RegisterDto) (w : World) :
  email_taken (db w) (reg_email dto) →
  ∃ w',
    register dto w =
      (Rejected (ConflictException "User with this email already exists"), w')
    ∧ db w' = db w
    ∧ calls_during w w' = [Call_findOne EUsers].
Proof.
  intros Htaken. eexists. split; [by apply register_conflict_run|].
  split; [done|]. by apply calls_during_app.
Qed.

(** C3. When no stored user has the given email, [register] succeeds and
    adds exactly one Organization, exactly one User and exactly one Session
    to the database.  The User has role OWNER, is active, has an unverified
    email, carries the requested email and points to the new Organization;
    the Organization's [userIds] contains the new User's id; the Session
    belongs to the new User. *)
Theorem register_fresh_email_creates (dto : RegisterDto) (w : World) :
  ¬ email_taken (db w) (reg_email dto) →
  ∃ response w' (o : Organization.t) (u : Users.t) (s : Session.t),
    register dto w = (Resolved response, w') ∧
    organizations (db w') = organizations (db w) ++ [o] ∧
    users (db w') = users (db w) ++ [u] ∧
    sessions (db w') = sessions (db w) ++ [s] ∧
    Users.role u = UserRole.OWNER ∧
    Users.isActive u = true ∧
    Users.isEmailVerified u = false ∧
    Users.email u = reg_email dto ∧
    Users.organizationId u = Organization.id o ∧
    (∃ ids, Organization.userIds o = Some ids ∧ Users.id u ∈ ids) ∧
    Session.user s = Users.id u.
Proof.
  intros Hfree.
  exists (Users.spread (new_user dto w), new_tokens w), (registered dto w),
    (new_organization dto w [new_user_id w]), (new_user dto w),
    (new_session w).
  split; [by apply register_run|].
  repeat split; try reflexivity.
  exists [new_user_id w]. split; [reflexivity|]. apply list_elem_of_here.
Qed.

(** Registration keeps emails unique. *)
Lemma register_unique_emails (dto : RegisterDto) (w : World) :
  unique_emails (db w) → ¬ email_taken (db w) (reg_email dto) →
  unique_emails (db (registered dto w)).
Proof.
  unfold unique_emails, emails. intros Hnd Hfree. cbn [db registered users].
  rewrite fmap_app. apply NoDup_app. split; [done|]. split.
  - intros e He Hnew. apply list_elem_of_fmap_1 in He as (u & -> & Hu).
    apply Hfree. exists u. split; [done|].
    cbn in Hnew. by apply list_elem_of_singleton in Hnew.
  - cbn. apply NoDup_singleton.
Qed.

End RegisterClaims.

(** ** Login *)

Section LoginClaims.

Context {runtime : Runtime} {bcrypt : Bcrypt}
        {jwtService : JwtService} {config : JwtConfig}.

(** The user object [login] answers with has no [passwordHash] property. *)
Lemma login_response_omits_passwordHash
    (dto : LoginDto) (w w' : World) (response : JsObject) (tokens : Tokens) :
  login dto w = (Resolved (response, tokens), w') →
  response !! "passwordHash" = None.
Proof.
  intros Hrun.
  destruct (looked_up dto w) as [u|] eqn:Hu;
    [|by rewrite (login_not_found_run dto w Hu) in Hrun].
  destruct (Users.isActive u) eqn:Hactive;
    [|by rewrite (login_inactive_run dto w u Hu Hactive) in Hrun].
  destruct (compareSync (login_password dto) (Users.passwordHash u)) eqn:Hcmp;
    [|by rewrite (login_wrong_password_run dto w u Hu Hactive Hcmp) in Hrun].
  rewrite (login_run dto w u Hu Hactive Hcmp) in Hrun.
  injection Hrun as <- _ _. apply lookup_delete_eq.
Qed.

(** The tokens [generateTokens] signs carry subject, email and role. *)
Lemma login_payload_claims (u : Users.t) (claims : JsObject) :
  carries (login_payload u) claims →
  claims !! "sub" = Some (JsString (Users.id u)) ∧
  claims !! "email" = Some (JsString (Users.email u)) ∧
  claims !! "role" = Some (JsString (Users.role u)).
Proof.
  intros Hc. unfold login_payload in Hc. repeat split.
  - eapply carries_lookup; [exact Hc|]. apply lookup_insert_eq.
  - eapply carries_lookup; [exact Hc|].
    rewrite lookup_insert_ne by done. apply lookup_insert_eq.
  - eapply carries_lookup; [exact Hc|].
    rewrite !lookup_insert_ne by done. apply lookup_singleton_eq.
Qed.

(** C4. When no stored user has the given email, [login] fails with the
    Unauthorized exception "User not found"; the only call it has issued
    is the lookup, so no password was compared. *)
Theorem login_unknown_email_unauthorized (dto : LoginDto) (w : World) :
  ¬ email_taken (db w) (login_email dto) →
  ∃ w',
    login dto w = (Rejected (UnauthorizedException "User not found"), w') ∧
    calls_during w w' = [Call_findOne EUsers] ∧
    Forall (λ c, is_compare c = false) (calls_during w w').
Proof.
  intros Hfree. eexists.
  split; [by apply login_not_found_run, looked_up_None|].
  rewrite (calls_during_app w _ [Call_findOne EUsers]) by reflexivity.
  split; [done|]. by repeat constructor.
Qed.

(** C5. In a database with unique emails, logging in as a stored user
    whose [isActive] flag is false fails with the Unauthorized exception
    "User account is deactivated", whatever password is supplied: also one
    that matches the stored hash.  No password is compared. *)
Theorem login_inactive_user_unauthorized
    (u : Users.t) (password : string) (w : World) :
  unique_emails (db w) → u ∈ users (db w) → Users.isActive u = false →
  ∃ w',
    login {| login_email := Users.email u; login_password := password |} w
    = (Rejected (UnauthorizedException "User account is deactivated"), w') ∧
    calls_during w w' = [Call_findOne EUsers].
Proof.
  intros Hnd Hin Hinactive. eexists. split.
  - apply (login_inactive_run _ w u); [by apply looked_up_unique | done].
  - by apply calls_during_app.
Qed.

(** C6. In a database with unique emails, logging in as a stored, active
    user with a password that compares equal to the stored hash succeeds,
    and both the access token and the refresh token decode to claims whose
    [sub] is the id of that user. *)
Theorem login_tokens_same_subject
    (u : Users.t) (password : string) (w : World) :
  unique_emails (db w) → u ∈ users (db w) → Users.isActive u = true →
  compareSync password (Users.passwordHash u) = true →
  ∃ response tokens w' access refresh,
    login {| login_email := Users.email u; login_password := password |} w
    = (Resolved (response, tokens), w') ∧
    decode (accessToken tokens) = Some access ∧
    decode (refreshToken tokens) = Some refresh ∧
    access !! "sub" = Some (JsString (Users.id u)) ∧
    refresh !! "sub" = Some (JsString (Users.id u)).
Proof.
  intros Hnd Hin Hactive Hcmp.
  set (dto := {| login_email := Users.email u; login_password := password |}).
  pose proof (looked_up_unique u password w Hnd Hin) as Hu. fold dto in Hu.
  destruct (decode_sign (login_payload u)
              {| secret := cfg_secret jwtConfig;
                 expiresIn := signOptions jwtConfig ≫= cfg_expiresIn;
                 issuer := signOptions jwtConfig ≫= cfg_issuer;
                 audience := signOptions jwtConfig ≫= cfg_audience |}
              (clock (ticks w))) as (access & Ha & Hca).
  destruct (decode_sign (login_payload u)
              {| secret := rt_secret refreshTokenConfig;
                 expiresIn := rt_expiresIn refreshTokenConfig;
                 issuer := signOptions jwtConfig ≫= cfg_issuer;
                 audience := signOptions jwtConfig ≫= cfg_audience |}
              (clock (1 + ticks w))) as (refresh & Hr & Hcr).
  exists (delete "passwordHash" (Users.spread (touched w u))),
    (login_tokens w u), (logged_in dto w u), access, refresh.
  split; [by apply login_run|].
  split; [exact Ha|]. split; [exact Hr|].
  split; [apply (login_payload_claims u access Hca)
         | apply (login_payload_claims u refresh Hcr)].
Qed.

(** C10. A [login] that fails with an Unauthorized exception has issued no
    [persistAndFlush] and leaves the database as it was; its message is
    one of "User not found", "User account is deactivated" and "Password
    is incorrect", the three checks that come before the only flush. *)
Theorem login_unauthorized_writes_nothing
    (dto : LoginDto) (w w' : World) (message : string) :
  login dto w = (Rejected (UnauthorizedException message), w') →
  db w' = db w ∧
  Forall (λ c, is_write c = false) (calls_during w w') ∧
  message ∈ [ "User not found"; "User account is deactivated";
              "Password is incorrect" ].
Proof.
  intros Hrun.
  apply login_rejected_inv in Hrun as (Hdb & (cs & Hlog & Hcs) & He).
  split; [done|]. split; [by rewrite (calls_during_app w w' cs)|].
  apply elem_of_cons in He as [He|He];
    [injection He as ->; apply list_elem_of_here|].
  apply elem_of_cons in He as [He|He];
    [injection He as ->; apply list_elem_of_further, list_elem_of_here|].
  apply list_elem_of_singleton in He. injection He as ->.
  do 2 apply list_elem_of_further. apply list_elem_of_here.
Qed.

End LoginClaims.

(** ** Sessions and user validation *)

Section SessionClaims.

Context {runtime : Runtime} {bcrypt : Bcrypt}
        {jwtService : JwtService} {config : JwtConfig}.

Lemma login_sessions (dto : LoginDto) (w : World) :
  sessions (db (login dto w).2) = sessions (db w) ∧
  Call_persistAndFlush ESession ∉ calls_during w (login dto w).2.
Proof.
  assert (Hnot : ∀ cs : list Call,
             Forall (λ c, c ≠ Call_persistAndFlush ESession) cs →
             Call_persistAndFlush ESession ∉ cs).
  { intros cs Hcs Hin. rewrite Forall_forall in Hcs. by apply (Hcs _ Hin). }
  destruct (looked_up dto w) as [u|] eqn:Hu.
  - destruct (Users.isActive u) eqn:Hactive.
    + destruct (compareSync (login_password dto) (Users.passwordHash u))
        eqn:Hcmp.
      * rewrite (login_run dto w u Hu Hactive Hcmp). split; [done|].
        cbn [snd]. erewrite calls_during_app by reflexivity.
        apply Hnot. by repeat constructor.
      * rewrite (login_wrong_password_run dto w u Hu Hactive Hcmp).
        split; [done|]. cbn [snd]. erewrite calls_during_app.
        2:{ cbn [record_call log]. rewrite <- app_assoc. reflexivity. }
        apply Hnot. by repeat constructor.
    + rewrite (login_inactive_run dto w u Hu Hactive). split; [done|].
      cbn [snd]. erewrite calls_during_app by reflexivity.
      apply Hnot. by repeat constructor.
  - rewrite (login_not_found_run dto w Hu). split; [done|].
    cbn [snd]. erewrite calls_during_app by reflexivity.
    apply Hnot. by repeat constructor.
Qed.

(** C8, as amended.  A [register] call on a new email succeeds and adds
    exactly one Session, with [revoked] false.  Its [expiresAt] is the clock
    reading taken while the session is built ([Date.now()], the seventh
    reading of the call) plus 7 days, that is 604800000 ms; its [createdAt]
    is a separate reading, the next one, so that [expiresAt] is [createdAt]
    plus 7 days exactly when the two readings coincide.  A [register] call
    on a taken email adds no Session.  No [login] call, whatever its
    outcome, adds or changes a Session or flushes one. *)
Theorem session_created_once_by_register (dto : RegisterDto) (w : World) :
  ¬ email_taken (db w) (reg_email dto) →
  (∃ answer w' (s : Session.t),
     register dto w = (Resolved answer, w') ∧
     sessions (db w') = sessions (db w) ++ [s] ∧
     Session.revoked s = false ∧
     Session.expiresAt s = clock (6 + ticks w) + 604800000 ∧
     Session.createdAt s = clock (7 + ticks w) ∧
     (Session.expiresAt s = Session.createdAt s + 604800000
      ↔ clock (6 + ticks w) = clock (7 + ticks w))) ∧
  (∀ again : RegisterDto,
     email_taken (db w) (reg_email again) →
     sessions (db (register again w).2) = sessions (db w)) ∧
  (∀ (ldto : LoginDto) (lw : World),
     sessions (db (login ldto lw).2) = sessions (db lw) ∧
     Call_persistAndFlush ESession ∉ calls_during lw (login ldto lw).2).
Proof.
  intros Hfree. split; [|split].
  - exists (Users.spread (new_user dto w), new_tokens w), (registered dto w),
      (new_session w).
    split; [by apply register_run|].
    split; [reflexivity|]. split; [reflexivity|].
    split; [reflexivity|]. split; [reflexivity|].
    cbn [Session.expiresAt Session.createdAt Session.fields new_session].
    change SEVEN_DAYS with 604800000. lia.
  - intros again Htaken. by rewrite (register_conflict_run again w Htaken).
  - apply login_sessions.
Qed.

(** C9. [validateUser] never throws.  It answers with a stored row that
    has the given id and is active whenever there is one (the very row
    when ids are unique), and with null when no stored row has the id or
    every row that has it is inactive.  It writes nothing. *)
Theorem validateUser_active_or_null (id : string) (w : World) :
  ∃ (answer : option Users.t) (w' : World),
    validateUser id w = (Resolved answer, w') ∧
    db w' = db w ∧
    ((∃ u : Users.t,
        u ∈ users (db w) ∧ Users.id u = id ∧ Users.isActive u = true) →
     ∃ u : Users.t,
        answer = Some u ∧ u ∈ users (db w) ∧ Users.id u = id ∧
        Users.isActive u = true) ∧
    (∀ u : Users.t,
        NoDup ((λ r : Users.t, Users.id r) <$> users (db w)) →
        u ∈ users (db w) → Users.id u = id → Users.isActive u = true →
        answer = Some u) ∧
    ((∀ u : Users.t,
        u ∈ users (db w) → Users.id u = id → Users.isActive u = false) →
     answer = None).
Proof.
  eexists _, _. split; [reflexivity|]. split; [reflexivity|].
  split; [|split].
  - intros (u & Hin & Hid & Hactive).
    destruct (List.find _ _) as [u'|] eqn:Hfind.
    + apply find_some in Hfind as [Hin' Hm].
      apply matches_id_active in Hm as [Hid' Hactive'].
      exists u'. by rewrite <- list_elem_of_In in Hin'.
    + apply list_elem_of_In in Hin.
      pose proof (find_none _ _ Hfind u Hin) as Hm.
      rewrite (proj2 (matches_id_active id u) (conj Hid Hactive)) in Hm.
      discriminate.
  - intros u Hnd Hin <- Hactive. by apply find_id_active_unique.
  - intros Hall.
    destruct (List.find _ _) as [u'|] eqn:Hfind; [|done].
    apply find_some in Hfind as [Hin' Hm].
    apply matches_id_active in Hm as [Hid' Hactive'].
    apply list_elem_of_In in Hin'.
    rewrite (Hall u' Hin' Hid') in Hactive'. discriminate.
Qed.

End SessionClaims.

(** ** The service on concrete requests *)

Section Concrete.

#[local] Existing Instances
  Reference.runtime Reference.bcrypt Reference.jwtService Reference.config.

Definition response_of {B : Type} (r : Outcome (JsObject * B) * World)
  : option JsObject :=
  match r.1 with Resolved (response, _) => Some response | Rejected _ => None end.

Definition tokens_of {A : Type} (r : Outcome (A * Tokens) * World)
  : option Tokens :=
  match r.1 with Resolved (_, tokens) => Some tokens | Rejected _ => None end.

Definition alice_logs_in : LoginDto :=
  {| login_email := "alice@example.com"; login_password := "hunter2" |}.

Example carol_registered_rows :
  let w' := (register Reference.carol_registers Reference.world).2 in
  (λ u : Users.t, (Users.id u, Users.email u, Users.passwordHash u))
    <$> users (db w')
  = [ ("u1", "alice@example.com", "rhunter2");
      ("u2", "bob@example.com", "rrtr0ub4dor");
      ("0", "carol@example.com", "rcorrect horse") ] ∧
  (λ o : Organization.t, (Organization.id o, Organization.userIds o))
    <$> organizations (db w')
  = [ ("o1", Some ["u1"; "u2"]); ("0", Some ["0"]) ] ∧
  (λ s : Session.t,
     (Session.user s, Session.expiresAt s, Session.createdAt s,
      Session.revoked s))
    <$> sessions (db w')
  = [ ("0", 1700604800006, 1700000000007, false) ].
Proof. vm_compute. repeat apply conj; reflexivity. Qed.

Example carol_registered_claims :
  (tokens ← tokens_of (register Reference.carol_registers Reference.world);
   claims ← decode (accessToken tokens); Some (map_to_list claims))
  = Some [("sub", JsString "0"); ("iat", JsNumber 1700000000)] ∧
  (tokens ← tokens_of (register Reference.carol_registers Reference.world);
   claims ← decode (refreshToken tokens); Some (map_to_list claims))
  = Some [("sub", JsString "0"); ("iat", JsNumber 1700000000);
          ("jti", JsString "rr")].
Proof. vm_compute. repeat apply conj; reflexivity. Qed.

Example alice_logged_in_claims :
  (tokens ← tokens_of (login alice_logs_in Reference.world);
   claims ← decode (refreshToken tokens); Some (map_to_list claims))
  = Some [("sub", JsString "u1"); ("email", JsString "alice@example.com");
          ("iat", JsNumber 1700000000); ("role", JsString "OWNER")].
Proof. vm_compute. repeat apply conj; reflexivity. Qed.

Example alice_logged_in_response :
  (response_of (login alice_logs_in Reference.world)
     ≫= λ response, response !! "passwordHash") = None ∧
  (response_of (login alice_logs_in Reference.world)
     ≫= λ response, response !! "updatedAt") = Some (JsDate 1700000000002).
Proof. vm_compute. repeat apply conj; reflexivity. Qed.

Example bob_is_not_validated :
  (validateUser "u2" Reference.world).1 = Resolved None ∧
  (validateUser "u1" Reference.world).1 = Resolved (Some Reference.alice) ∧
  (validateUser "u3" Reference.world).1 = Resolved None.
Proof. vm_compute. repeat apply conj; reflexivity. Qed.

Lemma carol_is_new_everywhere :
  ¬ email_taken (db Reference.empty_world) (reg_email Reference.carol_registers)
  ∧ ¬ email_taken (db Reference.world) (reg_email Reference.carol_registers).
Proof. split; by apply find_email_free. Qed.

Lemma reference_world_unique_emails : unique_emails (db Reference.world).
Proof. apply (bool_decide_unpack _). by vm_compute. Qed.

(** C1, at [register].  Registering carol in the empty database succeeds,
    and the user object of the answer has a [passwordHash] property: it
    holds the hash that was stored for her password. *)
Theorem register_response_keeps_passwordHash :
  ∃ response tokens w',
    register Reference.carol_registers Reference.empty_world
    = (Resolved (response, tokens), w') ∧
    response !! "passwordHash" = Some (JsString "rcorrect horse").
Proof.
  destruct (register_response_passwordHash Reference.carol_registers
              Reference.empty_world (proj1 carol_is_new_everywhere))
    as (response & tokens & w' & Hrun & Hhash).
  by exists response, tokens, w'.
Qed.

(** C7, at [register].  Registering carol in the empty database succeeds,
    and neither of the two tokens of the answer has an [email] or a [role]
    among its claims: both decode to claims that hold the subject only
    (besides what the signer stamps, and the token id of the refresh
    token). *)
Theorem register_tokens_lack_email_and_role :
  ∃ response tokens w' access refresh,
    register Reference.carol_registers Reference.empty_world
    = (Resolved (response, tokens), w') ∧
    decode (accessToken tokens) = Some access ∧
    decode (refreshToken tokens) = Some refresh ∧
    is_Some (access !! "sub") ∧ is_Some (refresh !! "sub") ∧
    access !! "email" = None ∧ access !! "role" = None ∧
    refresh !! "email" = None ∧ refresh !! "role" = None.
Proof.
  destruct (register_tokens_claims Reference.carol_registers
              Reference.empty_world (proj1 carol_is_new_everywhere))
    as (response & tokens & w' & access & refresh & Hrun & Ha & Hr &
        Hsa & Hsr & Hrest).
  exists response, tokens, w', access, refresh.
  split; [exact Hrun|]. split; [exact Ha|]. split; [exact Hr|].
  split; [by rewrite Hsa|]. split; [by rewrite Hsr|]. exact Hrest.
Qed.

(** Alice is already stored: registering her again is refused. *)
Lemma register_existing_email_conflict_witness :
  email_taken (db Reference.world) (reg_email Reference.alice_registers) ∧
  ∃ w',
    register Reference.alice_registers Reference.world =
      (Rejected (ConflictException "User with this email already exists"), w')
    ∧ db w' = db Reference.world
    ∧ calls_during Reference.world w' = [Call_findOne EUsers].
Proof.
  assert (Htaken : email_taken (db Reference.world)
                     (reg_email Reference.alice_registers)).
  { exists Reference.alice. split; [apply list_elem_of_here | reflexivity]. }
  split; [exact Htaken|].
  exact (register_existing_email_conflict Reference.alice_registers
           Reference.world Htaken).
Defined.

(** Carol is not stored yet: registering her adds one row of each kind. *)
Lemma register_fresh_email_creates_witness :
  ¬ email_taken (db Reference.world) (reg_email Reference.carol_registers) ∧
  ∃ response w' (o : Organization.t) (u : Users.t) (s : Session.t),
    register Reference.carol_registers Reference.world
    = (Resolved response, w') ∧
    organizations (db w') = organizations (db Reference.world) ++ [o] ∧
    users (db w') = users (db Reference.world) ++ [u] ∧
    sessions (db w') = sessions (db Reference.world) ++ [s] ∧
    Users.role u = UserRole.OWNER ∧
    Users.isActive u = true ∧
    Users.isEmailVerified u = false ∧
    Users.email u = reg_email Reference.carol_registers ∧
    Users.organizationId u = Organization.id o ∧
    (∃ ids, Organization.userIds o = Some ids ∧ Users.id u ∈ ids) ∧
    Session.user s = Users.id u.
Proof.
  assert (Hfree : ¬ email_taken (db Reference.world)
                    (reg_email Reference.carol_registers)).
  { apply find_email_free. reflexivity. }
  split; [exact Hfree|].
  exact (register_fresh_email_creates Reference.carol_registers
           Reference.world Hfree).
Defined.

Definition nobody_logs_in : LoginDto :=
  {| login_email := "nobody@example.com"; login_password := "hunter2" |}.

Definition alice_mistypes : LoginDto :=
  {| login_email := "alice@example.com"; login_password := "hunter3" |}.

(** Nobody is stored under this email: the login stops at the lookup. *)
Lemma login_unknown_email_unauthorized_witness :
  ¬ email_taken (db Reference.world) (login_email nobody_logs_in) ∧
  ∃ w',
    login nobody_logs_in Reference.world
    = (Rejected (UnauthorizedException "User not found"), w') ∧
    calls_during Reference.world w' = [Call_findOne EUsers] ∧
    Forall (λ c, is_compare c = false) (calls_during Reference.world w').
Proof.
  assert (Hfree : ¬ email_taken (db Reference.world)
                    (login_email nobody_logs_in)).
  { apply find_email_free. reflexivity. }
  split; [exact Hfree|].
  exact (login_unknown_email_unauthorized nobody_logs_in Reference.world
           Hfree).
Defined.

(** Bob is deactivated: his own password does not let him in. *)
Lemma login_inactive_user_unauthorized_witness :
  compareSync "tr0ub4dor" (Users.passwordHash Reference.bob) = true ∧
  unique_emails (db Reference.world) ∧
  Reference.bob ∈ users (db Reference.world) ∧
  Users.isActive Reference.bob = false ∧
  ∃ w',
    login {| login_email := Users.email Reference.bob;
             login_password := "tr0ub4dor" |} Reference.world
    = (Rejected (UnauthorizedException "User account is deactivated"), w') ∧
    calls_during Reference.world w' = [Call_findOne EUsers].
Proof.
  assert (Hnd : unique_emails (db Reference.world)).
  { apply (bool_decide_unpack _). vm_compute. exact I. }
  assert (Hin : Reference.bob ∈ users (db Reference.world)).
  { apply list_elem_of_further, list_elem_of_here. }
  split; [reflexivity|]. split; [exact Hnd|]. split; [exact Hin|].
  split; [reflexivity|].
  exact (login_inactive_user_unauthorized Reference.bob "tr0ub4dor"
           Reference.world Hnd Hin eq_refl).
Defined.

(** Alice is active and types her password: both tokens name her. *)
Lemma login_tokens_same_subject_witness :
  unique_emails (db Reference.world) ∧
  Reference.alice ∈ users (db Reference.world) ∧
  Users.isActive Reference.alice = true ∧
  compareSync "hunter2" (Users.passwordHash Reference.alice) = true ∧
  ∃ response tokens w' access refresh,
    login {| login_email := Users.email Reference.alice;
             login_password := "hunter2" |} Reference.world
    = (Resolved (response, tokens), w') ∧
    decode (accessToken tokens) = Some access ∧
    decode (refreshToken tokens) = Some refresh ∧
    access !! "sub" = Some (JsString (Users.id Reference.alice)) ∧
    refresh !! "sub" = Some (JsString (Users.id Reference.alice)).
Proof.
  assert (Hnd : unique_emails (db Reference.world)).
  { apply (bool_decide_unpack _). vm_compute. exact I. }
  assert (Hin : Reference.alice ∈ users (db Reference.world)).
  { apply list_elem_of_here. }
  split; [exact Hnd|]. split; [exact Hin|].
  split; [reflexivity|]. split; [reflexivity|].
  exact (login_tokens_same_subject Reference.alice "hunter2"
           Reference.world Hnd Hin eq_refl eq_refl).
Defined.

(** Alice mistypes her password: refused after the comparison, with
    nothing written. *)
Lemma login_unauthorized_writes_nothing_witness :
  login alice_mistypes Reference.world
  = (Rejected (UnauthorizedException "Password is incorrect"),
     record_call (Call_bcrypt_compare "hunter3" "rhunter2")
       (record_call (Call_findOne EUsers) Reference.world)) ∧
  db (record_call (Call_bcrypt_compare "hunter3" "rhunter2")
        (record_call (Call_findOne EUsers) Reference.world))
  = db Reference.world ∧
  Forall (λ c, is_write c = false)
    (calls_during Reference.world
       (record_call (Call_bcrypt_compare "hunter3" "rhunter2")
          (record_call (Call_findOne EUsers) Reference.world))) ∧
  "Password is incorrect"
  ∈ [ "User not found"; "User account is deactivated";
      "Password is incorrect" ].
Proof.
  assert (Hrun : login alice_mistypes Reference.world
                 = (Rejected (UnauthorizedException "Password is incorrect"),
                    record_call (Call_bcrypt_compare "hunter3" "rhunter2")
                      (record_call (Call_findOne EUsers) Reference.world))).
  { reflexivity. }
  split; [exact Hrun|].
  exact (login_unauthorized_writes_nothing alice_mistypes Reference.world _
           "Password is incorrect" Hrun).
Defined.

(** C8, as first stated, fails.  Registering Carol in the empty database
    succeeds and stores one session; its [expiresAt] is 1700604800006
    while its [createdAt] is 1700000000007: the expiration is not the
    stored creation time plus 7 days (604800000 ms), it is one
    millisecond short of it. *)
Lemma session_expiry_is_not_createdAt_plus_7_days :
  ∃ answer w' (s : Session.t),
    register Reference.carol_registers Reference.empty_world
    = (Resolved answer, w') ∧
    sessions (db w') = [s] ∧
    Session.expiresAt s = 1700604800006 ∧
    Session.createdAt s = 1700000000007 ∧
    Session.expiresAt s ≠ Session.createdAt s + 7 * 24 * 60 * 60 * 1000.
Proof.
  exists (Users.spread (new_user Reference.carol_registers
                          Reference.empty_world),
          new_tokens Reference.empty_world),
    (registered Reference.carol_registers Reference.empty_world),
    (new_session Reference.empty_world).
  split.
  - apply register_run, find_email_free. reflexivity.
  - split; [reflexivity|]. split; [reflexivity|]. split; [reflexivity|].
    intros Heq. vm_compute in Heq. discriminate Heq.
Qed.

(** Carol is not stored yet, Alice is: one session for Carol, none for a
    second Alice, none for any login. *)
Lemma session_created_once_by_register_witness :
  ¬ email_taken (db Reference.world) (reg_email Reference.carol_registers) ∧
  email_taken (db Reference.world) (reg_email Reference.alice_registers) ∧
  (∃ answer w' (s : Session.t),
     register Reference.carol_registers Reference.world
     = (Resolved answer, w') ∧
     sessions (db w') = sessions (db Reference.world) ++ [s] ∧
     Session.revoked s = false ∧
     Session.expiresAt s = clock (6 + ticks Reference.world) + 604800000 ∧
     Session.createdAt s = clock (7 + ticks Reference.world) ∧
     (Session.expiresAt s = Session.createdAt s + 604800000
      ↔ clock (6 + ticks Reference.world)
        = clock (7 + ticks Reference.world))) ∧
  (∀ again : RegisterDto,
     email_taken (db Reference.world) (reg_email again) →
     sessions (db (register again Reference.world).2)
     = sessions (db Reference.world)) ∧
  (∀ (ldto : LoginDto) (lw : World),
     sessions (db (login ldto lw).2) = sessions (db lw) ∧
     Call_persistAndFlush ESession ∉ calls_during lw (login ldto lw).2).
Proof.
  assert (Hfree : ¬ email_taken (db Reference.world)
                    (reg_email Reference.carol_registers)).
  { apply find_email_free. reflexivity. }
  split; [exact Hfree|]. split.
  { exists Reference.alice. split; [apply list_elem_of_here | reflexivity]. }
  exact (session_created_once_by_register Reference.carol_registers
           Reference.world Hfree).
Defined.

End Concrete.

(** * Beyond the single request: invariants and compositions *)

(** ** Well-formed databases *)

Definition user_ids (l : list Users.t) : list string :=
  (λ u : Users.t, Users.id u) <$> l.

(** Primary keys are unique in each collection. *)
Definition unique_keys (s : Store) : Prop :=
  NoDup (user_ids (users s)) ∧
  NoDup ((λ o : Organization.t, Organization.id o) <$> organizations s) ∧
  NoDup ((λ x : Session.t, Session.id x) <$> sessions s).

(** The user is listed by the organization it points to. *)
Definition member_of (s : Store) (u : Users.t) : Prop :=
  ∃ (o : Organization.t) (ids : list string),
    o ∈ organizations s ∧
    Organization.id o = Users.organizationId u ∧
    Organization.userIds o = Some ids ∧
    Users.id u ∈ ids.

(** The session belongs to a stored user. *)
Definition owned (s : Store) (x : Session.t) : Prop :=
  ∃ u : Users.t, u ∈ users s ∧ Users.id u = Session.user x.

(** Users and organizations refer to each other, and sessions to users. *)
Definition references_hold (s : Store) : Prop :=
  (∀ u : Users.t, u ∈ users s → member_of s u) ∧
  (∀ x : Session.t, x ∈ sessions s → owned s x).

(** A user row without its [updatedAt]. *)
Definition forget_updatedAt (u : Users.t) : Users.t :=
  Users.set_updatedAt 0 u.

Section Rows.

Lemma find_app {A : Type} (f : A → bool) (l k : list A) :
  List.find f (l ++ k)
  = match List.find f l with Some x => Some x | None => List.find f k end.
Proof.
  induction l as [|a l IH]; [done|]. cbn [app List.find].
  by destruct (f a).
Qed.

Lemma find_elem_of {A : Type} (f : A → bool) (l : list A) (x : A) :
  List.find f l = Some x → x ∈ l ∧ f x = true.
Proof.
  intros Hfind. apply find_some in Hfind as [Hin Hf].
  split; [by apply list_elem_of_In | done].
Qed.

Lemma NoDup_snoc_fresh (l : list string) : NoDup l → NoDup (l ++ [fresh l]).
Proof.
  intros Hnd. apply NoDup_app. split; [done|]. split.
  - intros x Hx Hfresh. apply list_elem_of_singleton in Hfresh as ->.
    by apply (infinite_is_fresh l).
  - apply NoDup_singleton.
Qed.

(** With unique keys, a key names one row. *)
Lemma unique_row (l : list Users.t) (u r : Users.t) :
  NoDup (user_ids l) → u ∈ l → r ∈ l → Users.id r = Users.id u → r = u.
Proof.
  unfold user_ids. induction l as [|a l IH]; intros Hnd Hu Hr Hid.
  - by apply elem_of_nil in Hu.
  - rewrite fmap_cons in Hnd.
    pose proof (NoDup_cons_1_1 _ _ Hnd) as Hnotin.
    apply NoDup_cons_1_2 in Hnd.
    apply elem_of_cons in Hu as [->|Hu]; apply elem_of_cons in Hr as [->|Hr].
    + done.
    + exfalso. apply Hnotin. rewrite <- Hid.
      by apply (list_elem_of_fmap_2 (λ u : Users.t, Users.id u)).
    + exfalso. apply Hnotin. rewrite Hid.
      by apply (list_elem_of_fmap_2 (λ u : Users.t, Users.id u)).
    + by apply IH.
Qed.

(** Writing back a managed row whose key is unique replaces that row and no
    other. *)
Lemma write_back_insert (l : list Users.t) (i : nat) (u v : Users.t) :
  NoDup (user_ids l) → l !! i = Some u → Users.id v = Users.id u →
  (λ r : Users.t, if String.eqb (Users.id r) (Users.id u) then v else r)
    <$> l
  = <[i := v]> l.
Proof.
  intros Hnd Hi Hid. apply list_eq. intros j.
  rewrite list_lookup_fmap.
  destruct (decide (i = j)) as [<-|Hij].
  - rewrite list_lookup_insert_eq by (by eapply lookup_lt_Some).
    rewrite Hi. cbn. by rewrite String.eqb_refl.
  - rewrite list_lookup_insert_ne by done.
    destruct (l !! j) as [r|] eqn:Hj; [|done]. cbn.
    destruct (String.eqb _ _) eqn:Heq; [|done].
    apply String.eqb_eq in Heq.
    assert (r = u) as ->.
    { apply (unique_row l); [done| | |done];
        by eapply list_elem_of_lookup_2. }
    exfalso. apply Hij.
    apply (NoDup_lookup (user_ids l) i j (Users.id u)); [done| |];
      unfold user_ids; rewrite list_lookup_fmap; by (rewrite Hi || rewrite Hj).
Qed.

(** A write-back keeps every key in place. *)
Lemma write_back_ids (l : list Users.t) (u v : Users.t) :
  Users.id v = Users.id u →
  user_ids
    ((λ r : Users.t, if String.eqb (Users.id r) (Users.id u) then v else r)
       <$> l)
  = user_ids l.
Proof.
  intros Hid. unfold user_ids. rewrite <- list_fmap_compose.
  apply list_fmap_ext. intros i r _. cbn.
  destruct (String.eqb _ _) eqn:Heq; [|done].
  apply String.eqb_eq in Heq. congruence.
Qed.

(** Writing back a stored row with a new [updatedAt] changes nothing else
    in the collection, when keys are unique. *)
Lemma write_back_forget (l : list Users.t) (u : Users.t) (d : Z) :
  NoDup (user_ids l) → u ∈ l →
  forget_updatedAt
    <$> ((λ r : Users.t,
            if String.eqb (Users.id r) (Users.id u)
            then Users.set_updatedAt d u else r) <$> l)
  = forget_updatedAt <$> l.
Proof.
  intros Hnd Hu. rewrite <- list_fmap_compose.
  apply list_fmap_ext. intros i r Hr. cbn.
  destruct (String.eqb _ _) eqn:Heq; [|done].
  apply String.eqb_eq in Heq.
  assert (r = u) as ->; [|done].
  apply (unique_row l); [done|done| |done]. by eapply list_elem_of_lookup_2.
Qed.

Lemma emails_forget (l : list Users.t) :
  emails l = emails (forget_updatedAt <$> l).
Proof.
  unfold emails. rewrite <- list_fmap_compose. by apply list_fmap_ext.
Qed.

End Rows.

(** ** One request after another *)

Section Compositions.

Context {runtime : Runtime} {bcrypt : Bcrypt}
        {jwtService : JwtService} {config : JwtConfig}.

Lemma looked_up_elem_of (dto : LoginDto) (w : World) (u : Users.t) :
  looked_up dto w = Some u →
  u ∈ users (db w) ∧ Users.email u = login_email dto.
Proof.
  unfold looked_up. intros Hfind. apply find_elem_of in Hfind as [Hin Hm].
  split; [done | by apply matches_email].
Qed.

(** After a registration, the lookup by the registered email returns the
    new row. *)
Lemma looked_up_registered (dto : RegisterDto) (password : string) (w : World) :
  ¬ email_taken (db w) (reg_email dto) →
  looked_up {| login_email := reg_email dto; login_password := password |}
    (registered dto w)
  = Some (new_user dto w).
Proof.
  intros Hfree. unfold looked_up. cbn [db registered users login_email].
  rewrite find_app, (find_email_None _ _ Hfree). cbn [List.find].
  by rewrite (proj2 (matches_email (reg_email dto) (new_user dto w)) eq_refl).
Qed.

Lemma registered_email_taken (dto : RegisterDto) (w : World) :
  email_taken (db (registered dto w)) (reg_email dto).
Proof.
  exists (new_user dto w). split; [|done].
  cbn [db registered users]. apply elem_of_app. right. apply list_elem_of_here.
Qed.

(** X1. In a database with unique emails, logging in as a stored, active
    user with a password that [bcrypt.compare] rejects fails with the
    Unauthorized exception "Password is incorrect".  The lookup and one
    comparison are the only calls issued: no token is signed, the clock is
    not read and the database is left as it was. *)
Theorem login_wrong_password_unauthorized
    (u : Users.t) (password : string) (w : World) :
  unique_emails (db w) → u ∈ users (db w) → Users.isActive u = true →
  compareSync password (Users.passwordHash u) = false →
  ∃ w',
    login {| login_email := Users.email u; login_password := password |} w
    = (Rejected (UnauthorizedException "Password is incorrect"), w') ∧
    db w' = db w ∧ ticks w' = ticks w ∧
    calls_during w w'
    = [ Call_findOne EUsers;
        Call_bcrypt_compare password (Users.passwordHash u) ].
Proof.
  intros Hnd Hin Hactive Hcmp. eexists. split.
  - apply (login_wrong_password_run _ w u);
      [by apply looked_up_unique | done | done].
  - split; [done|]. split; [done|]. apply calls_during_app.
    cbn [record_call log login_password]. by rewrite <- app_assoc.
Qed.

(** X2. Once an email has been registered, registering it again is
    refused: the first [register] succeeds on a new email, and any later
    [register] with the same email, run on the world the first one left,
    fails with the Conflict exception and adds nothing. *)
Theorem register_same_email_twice (dto again : RegisterDto) (w : World) :
  ¬ email_taken (db w) (reg_email dto) →
  reg_email again = reg_email dto →
  ∃ answer w1 w2,
    register dto w = (Resolved answer, w1) ∧
    register again w1 =
      (Rejected (ConflictException "User with this email already exists"), w2)
    ∧ db w2 = db w1.
Proof.
  intros Hfree Hsame.
  exists (Users.spread (new_user dto w), new_tokens w), (registered dto w),
    (record_call (Call_findOne EUsers) (registered dto w)).
  split; [by apply register_run|]. split; [|reflexivity].
  apply register_conflict_run. rewrite Hsame. apply registered_email_taken.
Qed.

(** X3. A registered user can log in: after [register] has succeeded on a
    new email, [login] with the same email and password, run on the world
    [register] left, succeeds, provided [bcrypt.compare] accepts the
    password against the hash [register] stored.  Both tokens name the new
    user, and the answer shows the registered email. *)
Theorem register_then_login (dto : RegisterDto) (w : World) :
  ¬ email_taken (db w) (reg_email dto) →
  compareSync (reg_password dto)
    (hashSync (reg_password dto) 12 (entropy (draws w))) = true →
  ∃ answer w1 response tokens w2 access refresh,
    register dto w = (Resolved answer, w1) ∧
    login {| login_email := reg_email dto;
             login_password := reg_password dto |} w1
    = (Resolved (response, tokens), w2) ∧
    decode (accessToken tokens) = Some access ∧
    decode (refreshToken tokens) = Some refresh ∧
    access !! "sub" = Some (JsString (new_user_id w)) ∧
    refresh !! "sub" = Some (JsString (new_user_id w)) ∧
    response !! "id" = Some (JsString (new_user_id w)) ∧
    response !! "email" = Some (JsString (reg_email dto)).
Proof.
  intros Hfree Hcmp.
  set (ldto := {| login_email := reg_email dto;
                  login_password := reg_password dto |}).
  set (w1 := registered dto w). set (u := new_user dto w).
  pose proof (looked_up_registered dto (reg_password dto) w Hfree) as Hu.
  fold ldto w1 u in Hu.
  destruct (decode_sign (login_payload u)
              {| secret := cfg_secret jwtConfig;
                 expiresIn := signOptions jwtConfig ≫= cfg_expiresIn;
                 issuer := signOptions jwtConfig ≫= cfg_issuer;
                 audience := signOptions jwtConfig ≫= cfg_audience |}
              (clock (ticks w1))) as (access & Ha & Hca).
  destruct (decode_sign (login_payload u)
              {| secret := rt_secret refreshTokenConfig;
                 expiresIn := rt_expiresIn refreshTokenConfig;
                 issuer := signOptions jwtConfig ≫= cfg_issuer;
                 audience := signOptions jwtConfig ≫= cfg_audience |}
              (clock (1 + ticks w1))) as (refresh & Hr & Hcr).
  exists (Users.spread u, new_tokens w), w1,
    (delete "passwordHash" (Users.spread (touched w1 u))),
    (login_tokens w1 u), (logged_in ldto w1 u), access, refresh.
  split; [by apply register_run|].
  split; [by apply login_run|].
  split; [exact Ha|]. split; [exact Hr|].
  split; [apply (login_payload_claims u access Hca)|].
  split; [apply (login_payload_claims u refresh Hcr)|].
  split.
  - rewrite lookup_delete_ne by done. apply lookup_insert_eq.
  - rewrite lookup_delete_ne by done. unfold Users.spread.
    rewrite lookup_insert_ne by done. apply lookup_insert_eq.
Qed.

(** X4. A registered user is valid: after [register] has succeeded on a
    new email, [validateUser] with the id of the new user, run on the world
    [register] left, answers with the row [register] stored: the user
    with the registered email, role OWNER, active. *)
Theorem register_then_validateUser (dto : RegisterDto) (w : World) :
  ¬ email_taken (db w) (reg_email dto) →
  ∃ answer w1 (u : Users.t) w2,
    register dto w = (Resolved answer, w1) ∧
    validateUser (new_user_id w) w1 = (Resolved (Some u), w2) ∧
    u ∈ users (db w1) ∧
    Users.id u = new_user_id w ∧
    Users.email u = reg_email dto ∧
    Users.role u = UserRole.OWNER ∧
    answer.1 !! "id" = Some (JsString (Users.id u)).
Proof.
  intros Hfree.
  exists (Users.spread (new_user dto w), new_tokens w), (registered dto w),
    (new_user dto w), (record_call (Call_findOne EUsers) (registered dto w)).
  split; [by apply register_run|]. split.
  - unfold validateUser, await, em_findOne_Users, resolve. cbn beta iota.
    f_equal. f_equal. cbn [db registered users].
    rewrite find_app.
    destruct (List.find _ (users (db w))) as [r|] eqn:Hfind.
    + apply find_elem_of in Hfind as [Hin Hm].
      apply matches_id_active in Hm as [Hid _]. exfalso.
      apply (infinite_is_fresh (Users.id <$> users (db w))).
      fold (new_user_id w). rewrite <- Hid.
      by apply list_elem_of_fmap_2.
    + cbn [List.find].
      by rewrite (proj2 (matches_id_active (new_user_id w) (new_user dto w))
                    (conj eq_refl eq_refl)).
  - split; [cbn [db registered users]; apply elem_of_app; right;
            apply list_elem_of_here|].
    split; [reflexivity|]. split; [reflexivity|]. split; [reflexivity|].
    cbn [fst]. apply lookup_insert_eq.
Qed.

End Compositions.

(** ** What every request preserves *)

Section Invariants.

Context {runtime : Runtime} {bcrypt : Bcrypt}
        {jwtService : JwtService} {config : JwtConfig}.

(** A login that resolves went through the three checks. *)
Lemma login_resolved_inv
    (dto : LoginDto) (w w' : World) (response : JsObject) (tokens : Tokens) :
  login dto w = (Resolved (response, tokens), w') →
  ∃ u : Users.t,
    looked_up dto w = Some u ∧
    Users.isActive u = true ∧
    compareSync (login_password dto) (Users.passwordHash u) = true ∧
    response = delete "passwordHash" (Users.spread (touched w u)) ∧
    tokens = login_tokens w u ∧
    w' = logged_in dto w u.
Proof.
  intros Hrun.
  destruct (looked_up dto w) as [u|] eqn:Hu;
    [|by rewrite (login_not_found_run dto w Hu) in Hrun].
  destruct (Users.isActive u) eqn:Hactive;
    [|by rewrite (login_inactive_run dto w u Hu Hactive) in Hrun].
  destruct (compareSync (login_password dto) (Users.passwordHash u)) eqn:Hcmp;
    [|by rewrite (login_wrong_password_run dto w u Hu Hactive Hcmp) in Hrun].
  rewrite (login_run dto w u Hu Hactive Hcmp) in Hrun.
  injection Hrun as <- <- <-. by exists u.
Qed.

(** Whatever its outcome, a login leaves the database as it was or as
    [logged_in] describes it, for the row the lookup returned. *)
Lemma login_db_cases (dto : LoginDto) (w : World) :
  db (login dto w).2 = db w ∨
  ∃ u : Users.t,
    looked_up dto w = Some u ∧ (login dto w).2 = logged_in dto w u.
Proof.
  destruct (looked_up dto w) as [u|] eqn:Hu;
    [|left; by rewrite (login_not_found_run dto w Hu)].
  destruct (Users.isActive u) eqn:Hactive;
    [|left; by rewrite (login_inactive_run dto w u Hu Hactive)].
  destruct (compareSync (login_password dto) (Users.passwordHash u)) eqn:Hcmp;
    [|left; by rewrite (login_wrong_password_run dto w u Hu Hactive Hcmp)].
  right. exists u. by rewrite (login_run dto w u Hu Hactive Hcmp).
Qed.

Lemma register_db_cases (dto : RegisterDto) (w : World) :
  db (register dto w).2 = db w ∨
  (¬ email_taken (db w) (reg_email dto) ∧
   (register dto w).2 = registered dto w).
Proof.
  destruct (List.find (Users.matches [Users.where_email (reg_email dto)])
              (users (db w))) as [u|] eqn:Hfind.
  - left.
    by rewrite (register_conflict_run dto w (find_email_taken _ _ _ Hfind)).
  - right. pose proof (find_email_free _ _ Hfind) as Hfree.
    split; [done|]. by rewrite (register_run dto w Hfree).
Qed.

Lemma registered_unique_keys (dto : RegisterDto) (w : World) :
  unique_keys (db w) → unique_keys (db (registered dto w)).
Proof.
  intros (Hu & Ho & Hs).
  unfold unique_keys, user_ids. cbn [db registered users organizations sessions].
  rewrite !fmap_app. repeat split.
  - apply (NoDup_snoc_fresh (Users.id <$> users (db w))), Hu.
  - apply (NoDup_snoc_fresh (Organization.id <$> organizations (db w))), Ho.
  - apply (NoDup_snoc_fresh (Session.id <$> sessions (db w))), Hs.
Qed.

Lemma logged_in_unique (dto : LoginDto) (w : World) (u : Users.t) :
  unique_keys (db w) → unique_emails (db w) → u ∈ users (db w) →
  unique_keys (db (logged_in dto w u)) ∧
  unique_emails (db (logged_in dto w u)).
Proof.
  intros (Hu & Hok & Hsk) He Hin.
  unfold unique_keys, unique_emails in *.
  cbn [db logged_in users organizations sessions]. split.
  - by rewrite write_back_ids.
  - unfold touched.
    by rewrite emails_forget, write_back_forget, <- emails_forget.
Qed.

(** X5. [register] keeps primary keys and emails unique: run on a database
    where no two rows of a collection share an id and no two users share
    an email, it leaves such a database, whether it succeeds or fails. *)
Theorem register_keeps_rows_unique (dto : RegisterDto) (w : World) :
  unique_keys (db w) → unique_emails (db w) →
  unique_keys (db (register dto w).2) ∧
  unique_emails (db (register dto w).2).
Proof.
  intros Hkeys He.
  destruct (register_db_cases dto w) as [->|[Hfree ->]]; [done|].
  split; [by apply registered_unique_keys | by apply register_unique_emails].
Qed.

(** X6. Whatever its outcome, [login] changes nothing in the database but
    the [updatedAt] of user rows, when user ids are unique: organizations
    and sessions are the same, and every user row keeps its id, email,
    password hash, role, flags, organization and projects. *)
Theorem login_changes_updatedAt_only (dto : LoginDto) (w : World) :
  unique_keys (db w) →
  forget_updatedAt <$> users (db (login dto w).2)
  = forget_updatedAt <$> users (db w) ∧
  organizations (db (login dto w).2) = organizations (db w) ∧
  sessions (db (login dto w).2) = sessions (db w).
Proof.
  intros (Hu & _ & _).
  destruct (login_db_cases dto w) as [->|(u & Hlook & ->)]; [done|].
  cbn [db logged_in users organizations sessions].
  split; [|done].
  apply looked_up_elem_of in Hlook as [Hin _].
  by apply write_back_forget.
Qed.

(** X7. [login] keeps primary keys and emails unique, whatever its
    outcome. *)
Theorem login_keeps_rows_unique (dto : LoginDto) (w : World) :
  unique_keys (db w) → unique_emails (db w) →
  unique_keys (db (login dto w).2) ∧ unique_emails (db (login dto w).2).
Proof.
  intros Hkeys He.
  destruct (login_db_cases dto w) as [->|(u & Hlook & ->)]; [done|].
  apply looked_up_elem_of in Hlook as [Hin _].
  by apply logged_in_unique.
Qed.

(** X8. A login that succeeds rewrites exactly one row, the one of the
    user who logged in, when user ids are unique: the users are the ones
    stored before with that row's [updatedAt] set to the clock reading
    taken after the tokens were signed; the user object of the answer is
    that new row without its [passwordHash]. *)
Theorem login_touches_one_row
    (dto : LoginDto) (w w' : World) (response : JsObject) (tokens : Tokens) :
  unique_keys (db w) →
  login dto w = (Resolved (response, tokens), w') →
  ∃ (i : nat) (u : Users.t),
    users (db w) !! i = Some u ∧
    Users.email u = login_email dto ∧
    users (db w')
    = <[i := Users.set_updatedAt (clock (2 + ticks w)) u]> (users (db w)) ∧
    response
    = delete "passwordHash"
        (Users.spread (Users.set_updatedAt (clock (2 + ticks w)) u)).
Proof.
  intros (Hu & _ & _) Hrun.
  apply login_resolved_inv in Hrun as (u & Hlook & _ & _ & -> & _ & ->).
  apply looked_up_elem_of in Hlook as [Hin Hemail].
  apply list_elem_of_lookup_1 in Hin as [i Hi].
  exists i, u. split; [done|]. split; [done|]. split; [|done].
  cbn [db logged_in users]. by apply write_back_insert.
Qed.

End Invariants.

(** ** References between rows *)

Section References.

Context {runtime : Runtime} {bcrypt : Bcrypt}
        {jwtService : JwtService} {config : JwtConfig}.

Lemma member_of_more (s s' : Store) (u : Users.t) :
  (∀ o : Organization.t, o ∈ organizations s → o ∈ organizations s') →
  member_of s u → member_of s' u.
Proof.
  intros Hsub (o & ids & Ho & Hid & Hids & Hin).
  exists o, ids. split; [by apply Hsub | done].
Qed.

Lemma registered_references (dto : RegisterDto) (w : World) :
  references_hold (db w) → references_hold (db (registered dto w)).
Proof.
  intros [Hmembers Hsessions]. split.
  - intros u Hu. cbn [db registered users] in Hu.
    apply elem_of_app in Hu as [Hu|Hu].
    + apply (member_of_more (db w)); [|by apply Hmembers].
      intros o Ho. cbn [db registered organizations].
      apply elem_of_app. by left.
    + apply list_elem_of_singleton in Hu as ->.
      exists (new_organization dto w [new_user_id w]), [new_user_id w].
      split; [|split; [done|split; [done|apply list_elem_of_here]]].
      cbn [db registered organizations]. apply elem_of_app. right.
      apply list_elem_of_here.
  - intros x Hx. cbn [db registered sessions] in Hx.
    apply elem_of_app in Hx as [Hx|Hx].
    + destruct (Hsessions x Hx) as (u & Hu & Hid).
      exists u. split; [|done]. cbn [db registered users].
      apply elem_of_app. by left.
    + apply list_elem_of_singleton in Hx as ->.
      exists (new_user dto w). split; [|done]. cbn [db registered users].
      apply elem_of_app. right. apply list_elem_of_here.
Qed.

Lemma logged_in_references (dto : LoginDto) (w : World) (u : Users.t) :
  references_hold (db w) → u ∈ users (db w) →
  references_hold (db (logged_in dto w u)).
Proof.
  intros [Hmembers Hsessions] Hin. split.
  - intros r' Hr'. cbn [db logged_in users] in Hr'.
    apply list_elem_of_fmap_1 in Hr' as (r & -> & Hr).
    destruct (String.eqb _ _).
    + destruct (Hmembers u Hin) as (o & ids & Ho & Hid & Hids & Hmem).
      by exists o, ids.
    + destruct (Hmembers r Hr) as (o & ids & Ho & Hid & Hids & Hmem).
      by exists o, ids.
  - intros x Hx. cbn [db logged_in sessions] in Hx.
    destruct (Hsessions x Hx) as (r & Hr & Hid).
    cbn [db logged_in users].
    eexists. split.
    + apply (list_elem_of_fmap_2 _ _ r), Hr.
    + cbn beta. destruct (String.eqb _ _) eqn:Heq; [|done].
      apply String.eqb_eq in Heq. cbn. congruence.
Qed.


(** X10. [login] keeps the references between rows, whatever its
    outcome. *)
Theorem login_keeps_references (dto : LoginDto) (w : World) :
  references_hold (db w) → references_hold (db (login dto w).2).
Proof.
  intros Hrefs.
  destruct (login_db_cases dto w) as [->|(u & Hlook & ->)]; [done|].
  apply looked_up_elem_of in Hlook as [Hin _].
  by apply logged_in_references.
Qed.

End References.

(** ** Tokens, answers and timestamps *)

Section Answers.

Context {runtime : Runtime} {bcrypt : Bcrypt}
        {jwtService : JwtService} {config : JwtConfig}.

Lemma jti_not_stamped : "jti" ∉ stamped_claims.
Proof.
  unfold stamped_claims.
  by rewrite !not_elem_of_union, !not_elem_of_singleton.
Qed.

Lemma clock_monotone (a b : nat) :
  (∀ n, clock n ≤ clock (S n)) → (a ≤ b)%nat → clock a ≤ clock b.
Proof.
  intros Hstep Hab. induction Hab as [|b Hab IH]; [lia|].
  specialize (Hstep b). lia.
Qed.

Lemma spread_id (u : Users.t) :
  Users.spread u !! "id" = Some (JsString (Users.id u)).
Proof. apply lookup_insert_eq. Qed.

Lemma spread_email (u : Users.t) :
  Users.spread u !! "email" = Some (JsString (Users.email u)).
Proof.
  unfold Users.spread. rewrite lookup_insert_ne by done.
  apply lookup_insert_eq.
Qed.

Lemma spread_role (u : Users.t) :
  Users.spread u !! "role" = Some (JsString (Users.role u)).
Proof.
  unfold Users.spread. rewrite !(lookup_insert_ne _ _ "role") by done.
  apply lookup_insert_eq.
Qed.

Lemma find_fmap_ext {A : Type} (f : A → bool) (g : A → A) (l : list A) :
  (∀ r, r ∈ l → f (g r) = f r) →
  List.find f (g <$> l) = g <$> List.find f l.
Proof.
  induction l as [|a l IH]; intros Hfg; [done|].
  rewrite fmap_cons. cbn [List.find].
  rewrite (Hfg a) by apply list_elem_of_here.
  destruct (f a); [done|]. apply IH. intros r Hr. apply Hfg.
  by apply list_elem_of_further.
Qed.

(** X11. With a clock that never goes back, the rows a registration
    creates are stamped in the order they are created (organization, then
    user, then session), and the session expires at most 7 days after its
    own [createdAt] and at least 7 days after the user was stamped. *)
Theorem register_timestamps_in_order (dto : RegisterDto) (w : World) :
  (∀ n, clock n ≤ clock (S n)) →
  ¬ email_taken (db w) (reg_email dto) →
  ∃ answer w' (o : Organization.t) (u : Users.t) (s : Session.t),
    register dto w = (Resolved answer, w') ∧
    organizations (db w') = organizations (db w) ++ [o] ∧
    users (db w') = users (db w) ++ [u] ∧
    sessions (db w') = sessions (db w) ++ [s] ∧
    Organization.createdAt o ≤ Organization.updatedAt o ∧
    Organization.updatedAt o ≤ Users.createdAt u ∧
    Users.createdAt u ≤ Users.updatedAt u ∧
    Users.updatedAt u ≤ Session.createdAt s ∧
    Users.updatedAt u + SEVEN_DAYS ≤ Session.expiresAt s ∧
    Session.expiresAt s ≤ Session.createdAt s + SEVEN_DAYS.
Proof.
  intros Hclock Hfree.
  exists (Users.spread (new_user dto w), new_tokens w), (registered dto w),
    (new_organization dto w [new_user_id w]), (new_user dto w),
    (new_session w).
  split; [by apply register_run|].
  split; [done|]. split; [done|]. split; [done|].
  cbn -[Z.add SEVEN_DAYS clock].
  pose proof (clock_monotone (ticks w) (S (ticks w)) Hclock) as H01.
  pose proof (clock_monotone (S (ticks w)) (S (S (ticks w))) Hclock) as H12.
  pose proof (clock_monotone (S (S (ticks w))) (S (S (S (ticks w)))) Hclock)
    as H23.
  pose proof (clock_monotone (S (S (S (ticks w)))) (6 + ticks w) Hclock)
    as H36.
  pose proof (clock_monotone (6 + ticks w) (7 + ticks w) Hclock) as H67.
  cbn [Nat.add] in *. lia.
Qed.

(** X12. The session [register] stores is the one of its answer: it holds
    the two tokens returned to the caller, and its [user] is the id shown
    in the returned user object, which is also the subject of both
    tokens. *)
Theorem register_session_matches_answer (dto : RegisterDto) (w : World) :
  ¬ email_taken (db w) (reg_email dto) →
  ∃ response tokens w' (s : Session.t) access refresh,
    register dto w = (Resolved (response, tokens), w') ∧
    sessions (db w') = sessions (db w) ++ [s] ∧
    Session.accessToken s = accessToken tokens ∧
    Session.refreshToken s = refreshToken tokens ∧
    response !! "id" = Some (JsString (Session.user s)) ∧
    decode (accessToken tokens) = Some access ∧
    decode (refreshToken tokens) = Some refresh ∧
    access !! "sub" = Some (JsString (Session.user s)) ∧
    refresh !! "sub" = Some (JsString (Session.user s)).
Proof.
  intros Hfree.
  destruct (register_tokens_claims dto w Hfree)
    as (response & tokens & w' & access & refresh & Hrun & Ha & Hr &
        Hsa & Hsr & _).
  rewrite (register_run dto w Hfree) in Hrun.
  injection Hrun as <- <- <-.
  exists (Users.spread (new_user dto w)), (new_tokens w), (registered dto w),
    (new_session w), access, refresh.
  split; [by apply register_run|].
  split; [done|]. split; [done|]. split; [done|].
  split; [apply spread_id|]. by repeat split.
Qed.

(** X13. Of the two tokens [register] signs, only the refresh token has a
    token id: its [jti] claim is the UUID drawn for it, and the access
    token has no [jti] claim. *)
Theorem register_refresh_token_id (dto : RegisterDto) (w : World) :
  ¬ email_taken (db w) (reg_email dto) →
  ∃ response tokens w' access refresh,
    register dto w = (Resolved (response, tokens), w') ∧
    decode (accessToken tokens) = Some access ∧
    decode (refreshToken tokens) = Some refresh ∧
    refresh !! "jti" = Some (JsString (entropy (1 + draws w))) ∧
    access !! "jti" = None ∧
    Call_randomUUID ∈ calls_during w w'.
Proof.
  intros Hfree.
  destruct (decode_sign (access_payload w)
              {| secret := AT_SECRET; expiresIn := Some (SpanText "15m");
                 audience := Some "spa"; issuer := Some "your-app" |}
              (clock (4 + ticks w))) as (access & Ha & Hca).
  destruct (decode_sign (refresh_payload w)
              {| secret := RT_SECRET; expiresIn := Some (SpanText "7d");
                 audience := Some "spa"; issuer := Some "your-app" |}
              (clock (5 + ticks w))) as (refresh & Hr & Hcr).
  exists (Users.spread (new_user dto w)), (new_tokens w), (registered dto w),
    access, refresh.
  split; [by apply register_run|].
  split; [exact Ha|]. split; [exact Hr|]. split; [|split].
  - eapply carries_lookup; [exact Hcr|]. unfold refresh_payload.
    rewrite lookup_insert_ne by done. apply lookup_singleton_eq.
  - eapply carries_absent; [exact Hca|done|apply jti_not_stamped].
  - erewrite calls_during_app by reflexivity.
    do 6 apply list_elem_of_further. apply list_elem_of_here.
Qed.

(** X14. [generateTokens] always resolves with two tokens that both decode
    to claims holding the given user id as [sub], the given email and the
    given role.  It signs twice and does nothing else: the database and
    the random source are untouched. *)
Theorem generateTokens_claims (userId email role : string) (w : World) :
  ∃ tokens w' access refresh,
    generateTokens userId email role w = (Resolved tokens, w') ∧
    decode (accessToken tokens) = Some access ∧
    decode (refreshToken tokens) = Some refresh ∧
    access !! "sub" = Some (JsString userId) ∧
    access !! "email" = Some (JsString email) ∧
    access !! "role" = Some (JsString role) ∧
    refresh !! "sub" = Some (JsString userId) ∧
    refresh !! "email" = Some (JsString email) ∧
    refresh !! "role" = Some (JsString role) ∧
    db w' = db w ∧ draws w' = draws w ∧
    Forall (λ c, ∃ payload, c = Call_signAsync payload) (calls_during w w') ∧
    length (calls_during w w') = 2%nat.
Proof.
  set (payload := <[ "sub" := JsString userId ]>
                    (<[ "email" := JsString email ]>
                       {[ "role" := JsString role ]}) : JsObject).
  assert (Hclaims : ∀ claims, carries payload claims →
            claims !! "sub" = Some (JsString userId) ∧
            claims !! "email" = Some (JsString email) ∧
            claims !! "role" = Some (JsString role)).
  { intros claims Hc. repeat split.
    - eapply carries_lookup; [exact Hc|]. apply lookup_insert_eq.
    - eapply carries_lookup; [exact Hc|]. unfold payload.
      rewrite lookup_insert_ne by done. apply lookup_insert_eq.
    - eapply carries_lookup; [exact Hc|]. unfold payload.
      rewrite !lookup_insert_ne by done. apply lookup_singleton_eq. }
  destruct (decode_sign payload
              {| secret := cfg_secret jwtConfig;
                 expiresIn := signOptions jwtConfig ≫= cfg_expiresIn;
                 issuer := signOptions jwtConfig ≫= cfg_issuer;
                 audience := signOptions jwtConfig ≫= cfg_audience |}
              (clock (ticks w))) as (access & Ha & Hca).
  destruct (decode_sign payload
              {| secret := rt_secret refreshTokenConfig;
                 expiresIn := rt_expiresIn refreshTokenConfig;
                 issuer := signOptions jwtConfig ≫= cfg_issuer;
                 audience := signOptions jwtConfig ≫= cfg_audience |}
              (clock (S (ticks w)))) as (refresh & Hr & Hcr).
  eexists _, _, access, refresh.
  split; [reflexivity|]. cbn [accessToken refreshToken].
  split; [exact Ha|]. split; [exact Hr|].
  destruct (Hclaims access Hca) as (? & ? & ?).
  destruct (Hclaims refresh Hcr) as (? & ? & ?).
  do 6 (split; [done|]).
  split; [reflexivity|]. split; [reflexivity|].
  rewrite (calls_during_app w _
             [Call_signAsync payload; Call_signAsync payload]).
  - split; [|done]. repeat constructor; by eexists.
  - cbn [log record_call tick]. by rewrite <- app_assoc.
Qed.

(** X15. The tokens of a successful login describe the user of its
    answer: in both tokens the [sub], [email] and [role] claims are the
    [id], [email] and [role] of the returned user object. *)
Theorem login_claims_match_response
    (dto : LoginDto) (w w' : World) (response : JsObject) (tokens : Tokens) :
  login dto w = (Resolved (response, tokens), w') →
  ∃ access refresh,
    decode (accessToken tokens) = Some access ∧
    decode (refreshToken tokens) = Some refresh ∧
    is_Some (response !! "id") ∧
    access !! "sub" = response !! "id" ∧
    access !! "email" = response !! "email" ∧
    access !! "role" = response !! "role" ∧
    refresh !! "sub" = response !! "id" ∧
    refresh !! "email" = response !! "email" ∧
    refresh !! "role" = response !! "role".
Proof.
  intros Hrun.
  apply login_resolved_inv in Hrun as (u & _ & _ & _ & -> & -> & _).
  destruct (decode_sign (login_payload u)
              {| secret := cfg_secret jwtConfig;
                 expiresIn := signOptions jwtConfig ≫= cfg_expiresIn;
                 issuer := signOptions jwtConfig ≫= cfg_issuer;
                 audience := signOptions jwtConfig ≫= cfg_audience |}
              (clock (ticks w))) as (access & Ha & Hca).
  destruct (decode_sign (login_payload u)
              {| secret := rt_secret refreshTokenConfig;
                 expiresIn := rt_expiresIn refreshTokenConfig;
                 issuer := signOptions jwtConfig ≫= cfg_issuer;
                 audience := signOptions jwtConfig ≫= cfg_audience |}
              (clock (1 + ticks w))) as (refresh & Hr & Hcr).
  exists access, refresh.
  split; [exact Ha|]. split; [exact Hr|].
  rewrite !lookup_delete_ne by done.
  rewrite spread_id, spread_email, spread_role.
  destruct (login_payload_claims u access Hca) as (-> & -> & ->).
  destruct (login_payload_claims u refresh Hcr) as (-> & -> & ->).
  split; [by eexists|]. by repeat split.
Qed.

(** X16. A login that succeeded can be repeated: run again with the same
    credentials on the world the first login left, [login] succeeds again
    and answers with the same user id, when user ids are unique. *)
Theorem login_twice
    (dto : LoginDto) (w w' : World) (response : JsObject) (tokens : Tokens) :
  unique_keys (db w) →
  login dto w = (Resolved (response, tokens), w') →
  ∃ response' tokens' w'',
    login dto w' = (Resolved (response', tokens'), w'') ∧
    response' !! "id" = response !! "id" ∧
    response' !! "email" = response !! "email".
Proof.
  intros (Hu & _ & _) Hrun.
  apply login_resolved_inv in Hrun
    as (u & Hlook & Hactive & Hcmp & -> & -> & ->).
  pose proof (looked_up_elem_of dto w u Hlook) as [Hin Hemail].
  assert (Hlook' : looked_up dto (logged_in dto w u) = Some (touched w u)).
  { unfold looked_up in *. cbn [db logged_in users].
    rewrite find_fmap_ext, Hlook.
    - cbn. by rewrite String.eqb_refl.
    - intros r Hr. cbn beta.
      destruct (String.eqb _ _) eqn:Heq; [|done].
      apply String.eqb_eq in Heq.
      by rewrite (unique_row (users (db w)) u r Hu Hin Hr Heq). }
  do 3 eexists. split.
  - by apply (login_run dto (logged_in dto w u) (touched w u)).
  - rewrite !lookup_delete_ne by done.
    by rewrite !spread_id, !spread_email.
Qed.

(** X17. [login] uses no randomness and hashes nothing, whatever its
    outcome: the random source is where it was, and neither [bcrypt.hash]
    nor [crypto.randomUUID] is among the calls issued. *)
Theorem login_draws_nothing (dto : LoginDto) (w : World) :
  draws (login dto w).2 = draws w ∧
  Forall (λ c, c ≠ Call_randomUUID ∧ ∀ plain, c ≠ Call_bcrypt_hash plain)
    (calls_during w (login dto w).2).
Proof.
  destruct (looked_up dto w) as [u|] eqn:Hu.
  - destruct (Users.isActive u) eqn:Hactive.
    + destruct (compareSync (login_password dto) (Users.passwordHash u))
        eqn:Hcmp.
      * rewrite (login_run dto w u Hu Hactive Hcmp). split; [done|].
        cbn [snd]. erewrite calls_during_app by reflexivity.
        by repeat constructor.
      * rewrite (login_wrong_password_run dto w u Hu Hactive Hcmp).
        split; [done|]. cbn [snd]. erewrite calls_during_app.
        2:{ cbn [record_call log]. rewrite <- app_assoc. reflexivity. }
        by repeat constructor.
    + rewrite (login_inactive_run dto w u Hu Hactive). split; [done|].
      cbn [snd]. erewrite calls_during_app by reflexivity.
      by repeat constructor.
  - rewrite (login_not_found_run dto w Hu). split; [done|].
    cbn [snd]. erewrite calls_during_app by reflexivity.
    by repeat constructor.
Qed.

End Answers.

(** ** Who gets in *)

Section Authorization.

Context {runtime : Runtime} {bcrypt : Bcrypt}
        {jwtService : JwtService} {config : JwtConfig}.

(** X19. [login] lets nobody in without valid credentials: whenever it
    succeeds, some stored user has the given email, is active, and has a
    password hash that [bcrypt.compare] accepts for the given password;
    the answer shows that user's id, and the comparison is among the calls
    issued. *)
Theorem login_success_requires_credentials
    (dto : LoginDto) (w w' : World) (response : JsObject) (tokens : Tokens) :
  login dto w = (Resolved (response, tokens), w') →
  ∃ u : Users.t,
    u ∈ users (db w) ∧
    Users.email u = login_email dto ∧
    Users.isActive u = true ∧
    compareSync (login_password dto) (Users.passwordHash u) = true ∧
    response !! "id" = Some (JsString (Users.id u)) ∧
    Call_bcrypt_compare (login_password dto) (Users.passwordHash u)
    ∈ calls_during w w'.
Proof.
  intros Hrun.
  apply login_resolved_inv in Hrun
    as (u & Hlook & Hactive & Hcmp & -> & _ & ->).
  apply looked_up_elem_of in Hlook as [Hin Hemail].
  exists u. split; [done|]. split; [done|]. split; [done|]. split; [done|].
  split.
  - rewrite lookup_delete_ne by done. apply lookup_insert_eq.
  - erewrite calls_during_app by reflexivity.
    apply list_elem_of_further, list_elem_of_here.
Qed.

End Authorization.

(** ** Sequences of requests *)

(** The three requests the service answers. *)
Inductive Request :=
  | Register (dto : RegisterDto)
  | Login (dto : LoginDto)
  | ValidateUser (id : string).

Definition well_formed (s : Store) : Prop :=
  unique_keys s ∧ unique_emails s ∧ references_hold s.

Definition empty_db : Store :=
  {| users := []; organizations := []; sessions := [] |}.

Section Requests.

Context {runtime : Runtime} {bcrypt : Bcrypt}
        {jwtService : JwtService} {config : JwtConfig}.

(** The world a request leaves, whatever it answers. *)
Definition serve (r : Request) (w : World) : World :=
  match r with
  | Register dto => (register dto w).2
  | Login dto => (login dto w).2
  | ValidateUser id => (validateUser id w).2
  end.

(** Requests served one after the other. *)
Definition serve_all (rs : list Request) (w : World) : World :=
  foldl (λ w r, serve r w) w rs.

Lemma serve_well_formed (r : Request) (w : World) :
  well_formed (db w) → well_formed (db (serve r w)).
Proof.
  intros (Hkeys & Hemails & Hrefs). destruct r as [dto|dto|id]; cbn [serve].
  - destruct (register_db_cases dto w) as [->|[Hfree ->]]; [done|].
    split; [by apply registered_unique_keys|].
    split; [by apply register_unique_emails | by apply registered_references].
  - destruct (login_db_cases dto w) as [->|(u & Hlook & ->)]; [done|].
    apply looked_up_elem_of in Hlook as [Hin _].
    destruct (logged_in_unique dto w u Hkeys Hemails Hin).
    split; [done|]. split; [done|]. by apply logged_in_references.
  - done.
Qed.

Lemma empty_db_well_formed : well_formed empty_db.
Proof.
  split; [|split].
  - repeat split; apply NoDup_nil_2.
  - apply NoDup_nil_2.
  - split; intros x Hx; by apply elem_of_nil in Hx.
Qed.

(** X18. Whatever requests are served, in whatever order, a database with
    unique keys, unique emails and consistent references stays so; and
    every database obtained from the empty one by serving requests is such
    a database.  So the emails of the users a [login] looks up are unique
    in every database the service itself has built. *)
Theorem requests_keep_database_well_formed :
  (∀ (rs : list Request) (w : World),
     well_formed (db w) → well_formed (db (serve_all rs w))) ∧
  (∀ (rs : list Request) (calls : list Call) (t d : nat),
     well_formed
       (db (serve_all rs
              {| db := empty_db; log := calls; ticks := t; draws := d |}))).
Proof.
  assert (Hall : ∀ (rs : list Request) (w : World),
             well_formed (db w) → well_formed (db (serve_all rs w))).
  { intros rs. induction rs as [|r rs IH]; intros w Hw; [done|].
    cbn [serve_all foldl]. apply IH. by apply serve_well_formed. }
  split; [exact Hall|].
  intros rs calls t d. apply Hall. apply empty_db_well_formed.
Qed.

End Requests.

(** ** The compositions on concrete requests *)

Section ConcreteCompositions.

#[local] Existing Instances
  Reference.runtime Reference.bcrypt Reference.jwtService Reference.config.

Definition alice_answer : JsObject :=
  delete "passwordHash"
    (Users.spread (touched Reference.world Reference.alice)).

Definition alice_tokens : Tokens :=
  login_tokens Reference.world Reference.alice.

Definition alice_logged_in : World :=
  logged_in alice_logs_in Reference.world Reference.alice.

Definition carol_registers_again : RegisterDto :=
  {| reg_email := "carol@example.com";
     reg_password := "another password";
     reg_organizationName := "Initrode" |}.

Example alice_login_runs :
  login alice_logs_in Reference.world
  = (Resolved (alice_answer, alice_tokens), alice_logged_in).
Proof. by apply login_run. Qed.

Example carol_then_logs_in :
  let w1 := (register Reference.carol_registers Reference.world).2 in
  let r := login {| login_email := "carol@example.com";
                    login_password := "correct horse" |} w1 in
  (response_of r ≫= λ response, response !! "id") = Some (JsString "0") ∧
  (λ u : Users.t, (Users.id u, Users.updatedAt u)) <$> users (db r.2)
  = [ ("u1", 1690000000000); ("u2", 1690000000500); ("0", 1700000000010) ] ∧
  (validateUser "0" w1).1 = Resolved (last (users (db w1))).
Proof. vm_compute. repeat apply conj; reflexivity. Qed.

(** Alice mistypes her password. *)
Lemma login_wrong_password_unauthorized_witness :
  unique_emails (db Reference.world) ∧
  Reference.alice ∈ users (db Reference.world) ∧
  Users.isActive Reference.alice = true ∧
  compareSync "hunter3" (Users.passwordHash Reference.alice) = false ∧
  ∃ w',
    login {| login_email := Users.email Reference.alice;
             login_password := "hunter3" |} Reference.world
    = (Rejected (UnauthorizedException "Password is incorrect"), w') ∧
    db w' = db Reference.world ∧ ticks w' = ticks Reference.world ∧
    calls_during Reference.world w'
    = [ Call_findOne EUsers;
        Call_bcrypt_compare "hunter3" (Users.passwordHash Reference.alice) ].
Proof.
  assert (Hnd : unique_emails (db Reference.world)).
  { apply (bool_decide_unpack _). vm_compute. exact I. }
  assert (Hin : Reference.alice ∈ users (db Reference.world)).
  { apply list_elem_of_here. }
  split; [exact Hnd|]. split; [exact Hin|].
  split; [reflexivity|]. split; [reflexivity|].
  exact (login_wrong_password_unauthorized Reference.alice "hunter3"
           Reference.world Hnd Hin eq_refl eq_refl).
Defined.

(** Carol registers, then somebody registers her email again. *)
Lemma register_same_email_twice_witness :
  ¬ email_taken (db Reference.world) (reg_email Reference.carol_registers) ∧
  reg_email carol_registers_again = reg_email Reference.carol_registers ∧
  ∃ answer w1 w2,
    register Reference.carol_registers Reference.world
    = (Resolved answer, w1) ∧
    register carol_registers_again w1 =
      (Rejected (ConflictException "User with this email already exists"), w2)
    ∧ db w2 = db w1.
Proof.
  assert (Hfree : ¬ email_taken (db Reference.world)
                    (reg_email Reference.carol_registers)).
  { apply find_email_free. reflexivity. }
  split; [exact Hfree|]. split; [reflexivity|].
  exact (register_same_email_twice Reference.carol_registers
           carol_registers_again Reference.world Hfree eq_refl).
Defined.

(** Carol registers, then logs in with the password she chose. *)
Lemma register_then_login_witness :
  ¬ email_taken (db Reference.world) (reg_email Reference.carol_registers) ∧
  compareSync (reg_password Reference.carol_registers)
    (hashSync (reg_password Reference.carol_registers) 12
       (entropy (draws Reference.world))) = true ∧
  ∃ answer w1 response tokens w2 access refresh,
    register Reference.carol_registers Reference.world
    = (Resolved answer, w1) ∧
    login {| login_email := reg_email Reference.carol_registers;
             login_password := reg_password Reference.carol_registers |} w1
    = (Resolved (response, tokens), w2) ∧
    decode (accessToken tokens) = Some access ∧
    decode (refreshToken tokens) = Some refresh ∧
    access !! "sub" = Some (JsString (new_user_id Reference.world)) ∧
    refresh !! "sub" = Some (JsString (new_user_id Reference.world)) ∧
    response !! "id" = Some (JsString (new_user_id Reference.world)) ∧
    response !! "email"
    = Some (JsString (reg_email Reference.carol_registers)).
Proof.
  assert (Hfree : ¬ email_taken (db Reference.world)
                    (reg_email Reference.carol_registers)).
  { apply find_email_free. reflexivity. }
  split; [exact Hfree|]. split; [reflexivity|].
  exact (register_then_login Reference.carol_registers Reference.world
           Hfree eq_refl).
Defined.

(** Carol registers, then her id is validated. *)
Lemma register_then_validateUser_witness :
  ¬ email_taken (db Reference.world) (reg_email Reference.carol_registers) ∧
  ∃ answer w1 (u : Users.t) w2,
    register Reference.carol_registers Reference.world
    = (Resolved answer, w1) ∧
    validateUser (new_user_id Reference.world) w1 = (Resolved (Some u), w2) ∧
    u ∈ users (db w1) ∧
    Users.id u = new_user_id Reference.world ∧
    Users.email u = reg_email Reference.carol_registers ∧
    Users.role u = UserRole.OWNER ∧
    answer.1 !! "id" = Some (JsString (Users.id u)).
Proof.
  assert (Hfree : ¬ email_taken (db Reference.world)
                    (reg_email Reference.carol_registers)).
  { apply find_email_free. reflexivity. }
  split; [exact Hfree|].
  exact (register_then_validateUser Reference.carol_registers Reference.world
           Hfree).
Defined.

(** The reference database has unique keys and emails; they stay unique
    when Carol registers. *)
Lemma register_keeps_rows_unique_witness :
  unique_keys (db Reference.world) ∧ unique_emails (db Reference.world) ∧
  unique_keys (db (register Reference.carol_registers Reference.world).2) ∧
  unique_emails (db (register Reference.carol_registers Reference.world).2).
Proof.
  assert (Hkeys : unique_keys (db Reference.world)).
  { unfold unique_keys. apply (bool_decide_unpack _). vm_compute. exact I. }
  assert (Hnd : unique_emails (db Reference.world)).
  { apply (bool_decide_unpack _). vm_compute. exact I. }
  split; [exact Hkeys|]. split; [exact Hnd|].
  exact (register_keeps_rows_unique Reference.carol_registers Reference.world
           Hkeys Hnd).
Defined.

(** Alice logs in: nothing but an [updatedAt] changes. *)
Lemma login_changes_updatedAt_only_witness :
  unique_keys (db Reference.world) ∧
  forget_updatedAt <$> users (db (login alice_logs_in Reference.world).2)
  = forget_updatedAt <$> users (db Reference.world) ∧
  organizations (db (login alice_logs_in Reference.world).2)
  = organizations (db Reference.world) ∧
  sessions (db (login alice_logs_in Reference.world).2)
  = sessions (db Reference.world).
Proof.
  assert (Hkeys : unique_keys (db Reference.world)).
  { unfold unique_keys. apply (bool_decide_unpack _). vm_compute. exact I. }
  split; [exact Hkeys|].
  exact (login_changes_updatedAt_only alice_logs_in Reference.world Hkeys).
Defined.

Lemma login_keeps_rows_unique_witness :
  unique_keys (db Reference.world) ∧ unique_emails (db Reference.world) ∧
  unique_keys (db (login alice_logs_in Reference.world).2) ∧
  unique_emails (db (login alice_logs_in Reference.world).2).
Proof.
  assert (Hkeys : unique_keys (db Reference.world)).
  { unfold unique_keys. apply (bool_decide_unpack _). vm_compute. exact I. }
  assert (Hnd : unique_emails (db Reference.world)).
  { apply (bool_decide_unpack _). vm_compute. exact I. }
  split; [exact Hkeys|]. split; [exact Hnd|].
  exact (login_keeps_rows_unique alice_logs_in Reference.world Hkeys Hnd).
Defined.

Lemma login_touches_one_row_witness :
  unique_keys (db Reference.world) ∧
  login alice_logs_in Reference.world
  = (Resolved (alice_answer, alice_tokens), alice_logged_in) ∧
  ∃ (i : nat) (u : Users.t),
    users (db Reference.world) !! i = Some u ∧
    Users.email u = login_email alice_logs_in ∧
    users (db alice_logged_in)
    = <[i := Users.set_updatedAt (clock (2 + ticks Reference.world)) u]>
        (users (db Reference.world)) ∧
    alice_answer
    = delete "passwordHash"
        (Users.spread
           (Users.set_updatedAt (clock (2 + ticks Reference.world)) u)).
Proof.
  assert (Hkeys : unique_keys (db Reference.world)).
  { unfold unique_keys. apply (bool_decide_unpack _). vm_compute. exact I. }
  assert (Hrun : login alice_logs_in Reference.world
                 = (Resolved (alice_answer, alice_tokens), alice_logged_in)).
  { apply login_run; reflexivity. }
  split; [exact Hkeys|]. split; [exact Hrun|].
  exact (login_touches_one_row alice_logs_in Reference.world alice_logged_in
           alice_answer alice_tokens Hkeys Hrun).
Defined.

(** In the reference database Alice and Bob are listed by Acme, and there
    is no session. *)
Lemma reference_world_references : references_hold (db Reference.world).
Proof.
  split.
  - intros u Hu. exists Reference.acme, ["u1"; "u2"].
    split; [apply list_elem_of_here|].
    cbn [db Reference.world users] in Hu.
    apply elem_of_cons in Hu as [->|Hu].
    + split; [reflexivity|]. split; [reflexivity|]. apply list_elem_of_here.
    + apply list_elem_of_singleton in Hu as ->.
      split; [reflexivity|]. split; [reflexivity|].
      apply list_elem_of_further, list_elem_of_here.
  - intros x Hx. cbn [db Reference.world sessions] in Hx.
    by apply elem_of_nil in Hx.
Defined.


Lemma login_keeps_references_witness :
  references_hold (db Reference.world) ∧
  references_hold (db (login alice_logs_in Reference.world).2).
Proof.
  split; [exact reference_world_references|].
  exact (login_keeps_references alice_logs_in Reference.world
           reference_world_references).
Defined.

(** The reference clock advances by one millisecond per reading. *)
Lemma register_timestamps_in_order_witness :
  (∀ n, clock n ≤ clock (S n)) ∧
  ¬ email_taken (db Reference.world) (reg_email Reference.carol_registers) ∧
  ∃ answer w' (o : Organization.t) (u : Users.t) (s : Session.t),
    register Reference.carol_registers Reference.world
    = (Resolved answer, w') ∧
    organizations (db w') = organizations (db Reference.world) ++ [o] ∧
    users (db w') = users (db Reference.world) ++ [u] ∧
    sessions (db w') = sessions (db Reference.world) ++ [s] ∧
    Organization.createdAt o ≤ Organization.updatedAt o ∧
    Organization.updatedAt o ≤ Users.createdAt u ∧
    Users.createdAt u ≤ Users.updatedAt u ∧
    Users.updatedAt u ≤ Session.createdAt s ∧
    Users.updatedAt u + SEVEN_DAYS ≤ Session.expiresAt s ∧
    Session.expiresAt s ≤ Session.createdAt s + SEVEN_DAYS.
Proof.
  assert (Hclock : ∀ n, clock n ≤ clock (S n)).
  { intros n. cbn [clock Reference.runtime]. lia. }
  assert (Hfree : ¬ email_taken (db Reference.world)
                    (reg_email Reference.carol_registers)).
  { apply find_email_free. reflexivity. }
  split; [exact Hclock|]. split; [exact Hfree|].
  exact (register_timestamps_in_order Reference.carol_registers
           Reference.world Hclock Hfree).
Defined.

Lemma register_session_matches_answer_witness :
  ¬ email_taken (db Reference.world) (reg_email Reference.carol_registers) ∧
  ∃ response tokens w' (s : Session.t) access refresh,
    register Reference.carol_registers Reference.world
    = (Resolved (response, tokens), w') ∧
    sessions (db w') = sessions (db Reference.world) ++ [s] ∧
    Session.accessToken s = accessToken tokens ∧
    Session.refreshToken s = refreshToken tokens ∧
    response !! "id" = Some (JsString (Session.user s)) ∧
    decode (accessToken tokens) = Some access ∧
    decode (refreshToken tokens) = Some refresh ∧
    access !! "sub" = Some (JsString (Session.user s)) ∧
    refresh !! "sub" = Some (JsString (Session.user s)).
Proof.
  assert (Hfree : ¬ email_taken (db Reference.world)
                    (reg_email Reference.carol_registers)).
  { apply find_email_free. reflexivity. }
  split; [exact Hfree|].
  exact (register_session_matches_answer Reference.carol_registers
           Reference.world Hfree).
Defined.

Lemma register_refresh_token_id_witness :
  ¬ email_taken (db Reference.world) (reg_email Reference.carol_registers) ∧
  ∃ response tokens w' access refresh,
    register Reference.carol_registers Reference.world
    = (Resolved (response, tokens), w') ∧
    decode (accessToken tokens) = Some access ∧
    decode (refreshToken tokens) = Some refresh ∧
    refresh !! "jti"
    = Some (JsString (entropy (1 + draws Reference.world))) ∧
    access !! "jti" = None ∧
    Call_randomUUID ∈ calls_during Reference.world w'.
Proof.
  assert (Hfree : ¬ email_taken (db Reference.world)
                    (reg_email Reference.carol_registers)).
  { apply find_email_free. reflexivity. }
  split; [exact Hfree|].
  exact (register_refresh_token_id Reference.carol_registers Reference.world
           Hfree).
Defined.

Lemma login_claims_match_response_witness :
  login alice_logs_in Reference.world
  = (Resolved (alice_answer, alice_tokens), alice_logged_in) ∧
  ∃ access refresh,
    decode (accessToken alice_tokens) = Some access ∧
    decode (refreshToken alice_tokens) = Some refresh ∧
    is_Some (alice_answer !! "id") ∧
    access !! "sub" = alice_answer !! "id" ∧
    access !! "email" = alice_answer !! "email" ∧
    access !! "role" = alice_answer !! "role" ∧
    refresh !! "sub" = alice_answer !! "id" ∧
    refresh !! "email" = alice_answer !! "email" ∧
    refresh !! "role" = alice_answer !! "role".
Proof.
  assert (Hrun : login alice_logs_in Reference.world
                 = (Resolved (alice_answer, alice_tokens), alice_logged_in)).
  { apply login_run; reflexivity. }
  split; [exact Hrun|].
  exact (login_claims_match_response alice_logs_in Reference.world
           alice_logged_in alice_answer alice_tokens Hrun).
Defined.

Lemma login_twice_witness :
  unique_keys (db Reference.world) ∧
  login alice_logs_in Reference.world
  = (Resolved (alice_answer, alice_tokens), alice_logged_in) ∧
  ∃ response' tokens' w'',
    login alice_logs_in alice_logged_in
    = (Resolved (response', tokens'), w'') ∧
    response' !! "id" = alice_answer !! "id" ∧
    response' !! "email" = alice_answer !! "email".
Proof.
  assert (Hkeys : unique_keys (db Reference.world)).
  { unfold unique_keys. apply (bool_decide_unpack _). vm_compute. exact I. }
  assert (Hrun : login alice_logs_in Reference.world
                 = (Resolved (alice_answer, alice_tokens), alice_logged_in)).
  { apply login_run; reflexivity. }
  split; [exact Hkeys|]. split; [exact Hrun|].
  exact (login_twice alice_logs_in Reference.world alice_logged_in
           alice_answer alice_tokens Hkeys Hrun).
Defined.

Lemma login_success_requires_credentials_witness :
  login alice_logs_in Reference.world
  = (Resolved (alice_answer, alice_tokens), alice_logged_in) ∧
  ∃ u : Users.t,
    u ∈ users (db Reference.world) ∧
    Users.email u = login_email alice_logs_in ∧
    Users.isActive u = true ∧
    compareSync (login_password alice_logs_in) (Users.passwordHash u) = true ∧
    alice_answer !! "id" = Some (JsString (Users.id u)) ∧
    Call_bcrypt_compare (login_password alice_logs_in) (Users.passwordHash u)
    ∈ calls_during Reference.world alice_logged_in.
Proof.
  assert (Hrun : login alice_logs_in Reference.world
                 = (Resolved (alice_answer, alice_tokens), alice_logged_in)).
  { apply login_run; reflexivity. }
  split; [exact Hrun|].
  exact (login_success_requires_credentials alice_logs_in Reference.world
           alice_logged_in alice_answer alice_tokens Hrun).
Defined.

(** A day at the service desk: Carol registers, her email is tried again,
    she logs in, mistypes once, and is validated. *)
Example requests_served :
  let w := serve_all
             [ Register Reference.carol_registers;
               Register carol_registers_again;
               Login {| login_email := "carol@example.com";
                        login_password := "correct horse" |};
               Login {| login_email := "carol@example.com";
                        login_password := "correct horse!" |};
               ValidateUser "0" ]
             Reference.empty_world in
  (λ u : Users.t, (Users.id u, Users.email u, Users.updatedAt u))
    <$> users (db w)
  = [ ("0", "carol@example.com", 1700000000010) ] ∧
  (λ o : Organization.t, (Organization.name o, Organization.userIds o))
    <$> organizations (db w)
  = [ ("Initech", Some ["0"]) ] ∧
  length (sessions (db w)) = 1%nat ∧
  length (filter (λ c, is_write c = true) (log w)) = 5%nat.
Proof. vm_compute. repeat apply conj; reflexivity. Qed.

End ConcreteCompositions.
